(** * arnold: the migration catalog, ledger and engine of [arnold/__init__.py]

    A shallow embedding of class [Terminator] and a verification of the
    statements made about it.

    Conventions of the model.
    - Python [int] is [Z]; Python [str] is [string], each character read as a
      code point below 256; Python lists are [list].
    - The database behind [db_client] is a store holding the rows of table
      [migration] in insertion order, the [SERIAL] counter and the clock that
      fills [applied_on].  The four statements the class issues are given
      their SQL meaning on that table; [ORDER BY] compares names code point
      by code point.  The store is the one left by [prepare]: the table
      exists.
    - The [DELETE] with [LIMIT] of line 102 is not a statement every store
      takes: PostgreSQL, whose dialect the other statements are written in,
      rejects it as a syntax error.  [db_client] comes from the
      configuration of the project, so whether its store takes the statement
      is a parameter, [bounded_delete]: a store that takes it removes the
      oldest matching row; one that does not raises and changes nothing.
    - The code of a migration unit lives outside the repository.  A unit is a
      module with optional attributes [up] and [down]; calling one acts on the
      rest of the database (type [Schema]) and may raise.  It does not touch
      table [migration].
    - A coroutine is a function from the store to an outcome, the store it
      leaves and the events it emitted, in order: database statements,
      imports, calls of unit operations and printed lines. *)

From Stdlib Require Import List String Ascii ZArith Lia Bool Sorted Permutation.
From Stdlib Require Import DecimalString.
Import ListNotations.

Local Open Scope string_scope.
Local Open Scope Z_scope.

(** ** Exceptions and outcomes *)

(** The exceptions a run can end with: those of Python, the one the class
    imports, what a unit raises ([UnitException]) and what [db_client]
    raises on a statement its store rejects ([DatabaseError]). *)
Inductive exn : Type :=
| ValueError
| TypeError
| OSError
| ImportError
| DirectionNotFoundException
| UnitException
| DatabaseError.

Inductive result (A : Type) : Type :=
| Ok (a : A)
| Raise (e : exn).

Arguments Ok {A} a.
Arguments Raise {A} e.

(** ** The Python builtins the class relies on *)

Module Py.

Definition len {A : Type} (l : list A) : Z := Z.of_nat (List.length l).

(** [str(n)] for an integer. *)
Definition str (n : Z) : string := NilZero.string_of_int (Z.to_int n).

(** [s.rsplit(sep, 1)] for a one-character separator: the part before the
    last [sep] and the part after it, when there is one. *)
Fixpoint rsplit_last (sep : ascii) (s : string) : option (string * string) :=
  match s with
  | EmptyString => None
  | String c s' =>
      match rsplit_last sep s' with
      | Some (a, b) => Some (String c a, b)
      | None => if Ascii.eqb c sep then Some (EmptyString, s') else None
      end
  end.

Definition rsplit1 (sep : ascii) (s : string) : list string :=
  match rsplit_last sep s with
  | Some (a, b) => [a; b]
  | None => [s]
  end.

(** [s.split(sep)] for a one-character separator. *)
Fixpoint split (sep : ascii) (s : string) : list string :=
  match s with
  | EmptyString => [EmptyString]
  | String c s' =>
      if Ascii.eqb c sep then EmptyString :: split sep s'
      else match split sep s' with
           | h :: t => String c h :: t
           | [] => [String c EmptyString]
           end
  end.

(** [l[0]]; a list returned by [split] is never empty. *)
Definition first (l : list string) : string := hd EmptyString l.

(** White space as [int()] sees it: the C white space and, above 127, the
    two Unicode spaces below 256 (NEL and NBSP). *)
Definition isspace (c : ascii) : bool :=
  let n := nat_of_ascii c in
  (((9 <=? n) && (n <=? 13)) || (n =? 32) || (n =? 133) || (n =? 160))%nat.

Definition digit (c : ascii) : option Z :=
  let n := nat_of_ascii c in
  if ((48 <=? n) && (n <=? 57))%nat then Some (Z.of_nat (n - 48)) else None.

Fixpoint lstrip (s : string) : string :=
  match s with
  | String c s' => if isspace c then lstrip s' else s
  | EmptyString => EmptyString
  end.

Fixpoint allspace (s : string) : bool :=
  match s with
  | String c s' => isspace c && allspace s'
  | EmptyString => true
  end.

(** The digits after the first one: more digits, single underscores between
    digits, then only white space. *)
Fixpoint int_digits (s : string) (acc : Z) : option Z :=
  match s with
  | EmptyString => Some acc
  | String c s' =>
      match digit c with
      | Some d => int_digits s' (10 * acc + d)
      | None =>
          if Ascii.eqb c "_" then
            match s' with
            | String c2 s'' =>
                match digit c2 with
                | Some d => int_digits s'' (10 * acc + d)
                | None => None
                end
            | EmptyString => None
            end
          else if allspace s then Some acc else None
      end
  end.

(** [int(s)] in base ten; [None] stands for [ValueError]. *)
Definition int (s : string) : option Z :=
  let s1 := lstrip s in
  let '(neg, s2) :=
    match s1 with
    | String "+" r => (false, r)
    | String "-" r => (true, r)
    | _ => (false, s1)
    end in
  match s2 with
  | String c r =>
      match digit c with
      | Some d => option_map (fun v => if neg then - v else v) (int_digits r d)
      | None => None
      end
  | EmptyString => None
  end.

(** [l.index(x)]: the first position of [x]; [None] stands for
    [ValueError]. *)
Fixpoint index (x : string) (l : list string) : option Z :=
  match l with
  | [] => None
  | y :: l' => if String.eqb y x then Some 0 else option_map Z.succ (index x l')
  end.

(** A slice bound: a negative bound counts from the end, and every bound is
    clamped to the list. *)
Definition bound (n i : Z) : Z :=
  if i <? 0 then Z.max 0 (i + n) else Z.min i n.

(** [l[start:stop]]. *)
Definition slice {A : Type} (l : list A) (start stop : Z) : list A :=
  let lo := bound (len l) start in
  let hi := bound (len l) stop in
  firstn (Z.to_nat (hi - lo)) (skipn (Z.to_nat lo) l).

(** [sorted(l, key=key)]: the keys are computed first, one per element and
    in order, so a key that raises makes the call raise; the sort is
    stable. *)
Fixpoint keyed {A : Type} (key : A -> option Z) (l : list A)
  : option (list (Z * A)) :=
  match l with
  | [] => Some []
  | x :: l' =>
      match key x with
      | None => None
      | Some k => option_map (cons (k, x)) (keyed key l')
      end
  end.

Fixpoint insert {A : Type} (p : Z * A) (l : list (Z * A)) : list (Z * A) :=
  match l with
  | [] => [p]
  | q :: l' => if fst p <=? fst q then p :: l else q :: insert p l'
  end.

Definition sort_keyed {A : Type} (l : list (Z * A)) : list (Z * A) :=
  fold_right insert [] l.

Definition sorted {A : Type} (l : list A) (key : A -> option Z)
  : option (list A) :=
  option_map (fun kl => map snd (sort_keyed kl)) (keyed key l).

End Py.

(** ** The data *)

Inductive Direction : Type := Up | Down.

Definition direction_eqb (a b : Direction) : bool :=
  match a, b with
  | Up, Up | Down, Down => true
  | _, _ => false
  end.

(** The strings ['up'] and ['down'] that [up] and [down] pass to
    [perform_migrations]. *)
Definition direction_name (d : Direction) : string :=
  match d with Up => "up" | Down => "down" end.

(** A row of table [migration]. *)
Record Row : Type := mkRow {
  id : Z;
  migration : string;
  applied_on : Z
}.

(** The statements the class sends to [db_client]. *)
Inductive sql : Type :=
| SelectIdWhereMigration (name : string)
| SelectLatest
| InsertMigration (name : string)
| DeleteMigration (name : string).

Inductive event : Type :=
| Fetched (q : sql)
| Executed (q : sql)
| Imported (module_name : string)
| Called (module_name : string) (attr : string)
| Printed (line : string).

(** The fields of a [Terminator] that the engine reads; [direction] is [None]
    until [_perform_migrations] assigns it. *)
Record Terminator : Type := mkTerminator {
  fake : bool;
  count : Z;
  folder : string;
  direction : option Direction
}.

Definition set_direction (self : Terminator) (d : Direction) : Terminator :=
  {| fake := fake self; count := count self; folder := folder self;
     direction := Some d |}.

(** [self.direction == "up"], [self.direction == "down"]. *)
Definition direction_is (self : Terminator) (d : Direction) : bool :=
  match direction self with
  | Some d' => direction_eqb d' d
  | None => false
  end.

(** The text printed for [self.direction]. *)
Definition direction_text (self : Terminator) : string :=
  match direction self with
  | Some d => direction_name d
  | None => "None"
  end.

Definition IGNORED_FILES : list string := ["__init__"].

Section Engine.

(** The part of the database the units act on. *)
Variable Schema : Type.

Record Store : Type := mkStore {
  table : list Row;
  serial : Z;
  clock : Z;
  schema : Schema
}.

(** An operation of a unit: it changes the schema and returns or raises. *)
Definition unit_op : Type := Schema -> result unit * Schema.

Record PyModule : Type := mkModule {
  attr_up : option unit_op;
  attr_down : option unit_op
}.

Definition getattr (m : PyModule) (d : Direction) : option unit_op :=
  match d with Up => attr_up m | Down => attr_down m end.

(** The collaborators: [termcolor.colored], [os.listdir] ([None] when it
    raises) and [importlib.import_module] ([None] when it raises). *)
Variable colored : string -> string -> string.
Variable listdir : string -> option (list string).
Variable import_module : string -> option PyModule.

(** Whether the store accepts a [DELETE] with a [LIMIT]. *)
Variable bounded_delete : bool.

(** *** Coroutines *)

Definition M (A : Type) : Type := Store -> result A * Store * list event.

Definition ret {A : Type} (a : A) : M A := fun st => (Ok a, st, []).

Definition raise {A : Type} (e : exn) : M A := fun st => (Raise e, st, []).

Definition bind {A B : Type} (m : M A) (f : A -> M B) : M B :=
  fun st =>
    match m st with
    | (Ok a, st1, tr1) =>
        match f a st1 with
        | (r, st2, tr2) => (r, st2, (tr1 ++ tr2)%list)
        end
    | (Raise e, st1, tr1) => (Raise e, st1, tr1)
    end.

Notation "x <- m ;; k" := (bind m (fun x => k))
  (at level 61, m at next level, right associativity).
Notation "m ;; k" := (bind m (fun _ => k))
  (at level 61, right associativity).

Definition emit (e : event) : M unit := fun st => (Ok tt, st, [e]).

Definition print (line : string) : M unit := emit (Printed line).

Definition lift_option {A : Type} (o : option A) (e : exn) : M A :=
  match o with
  | Some a => ret a
  | None => raise e
  end.

(** [for x in l: await body(x)] *)
Fixpoint for_each {A B : Type} (l : list A) (body : A -> M B) : M unit :=
  match l with
  | [] => ret tt
  | x :: l' => body x ;; for_each l' body
  end.

(** *** The ledger statements *)

Definition matching (name : string) (r : Row) : bool :=
  String.eqb (migration r) name.

(** [SELECT id FROM migration WHERE migration.migration = $1 LIMIT 1] *)
Definition select_id_where_migration (name : string) : M (list Z) :=
  fun st =>
    (Ok (firstn 1 (map id (filter (matching name) (table st)))), st,
     [Fetched (SelectIdWhereMigration name)]).

(** [ORDER BY migration DESC], rows of equal name in table order. *)
Fixpoint insert_desc (r : Row) (rows : list Row) : list Row :=
  match rows with
  | [] => [r]
  | q :: rows' =>
      if String.leb (migration q) (migration r) then r :: rows
      else q :: insert_desc r rows'
  end.

Definition order_by_migration_desc (rows : list Row) : list Row :=
  fold_right insert_desc [] rows.

(** [SELECT * FROM migration ORDER BY migration DESC LIMIT 1] *)
Definition select_latest : M (list Row) :=
  fun st =>
    (Ok (firstn 1 (order_by_migration_desc (table st))), st,
     [Fetched SelectLatest]).

(** [INSERT INTO migration (migration) VALUES ($1)] *)
Definition insert_migration (name : string) : M unit :=
  fun st =>
    (Ok tt,
     {| table := table st ++ [mkRow (serial st) name (clock st)];
        serial := serial st + 1;
        clock := clock st + 1;
        schema := schema st |},
     [Executed (InsertMigration name)]).

Fixpoint delete_one (name : string) (rows : list Row) : list Row :=
  match rows with
  | [] => []
  | r :: rows' =>
      if matching name r then rows' else r :: delete_one name rows'
  end.

(** [DELETE FROM migration WHERE migration.migration = $1 LIMIT 1] *)
Definition delete_migration (name : string) : M unit :=
  fun st =>
    if bounded_delete then
      (Ok tt,
       {| table := delete_one name (table st);
          serial := serial st;
          clock := clock st;
          schema := schema st |},
       [Executed (DeleteMigration name)])
    else (Raise DatabaseError, st, [Executed (DeleteMigration name)]).

(** *** Loading and calling a unit *)

Definition load (module_name : string) : M PyModule :=
  fun st =>
    match import_module module_name with
    | Some m => (Ok m, st, [Imported module_name])
    | None => (Raise ImportError, st, [Imported module_name])
    end.

(** [hasattr(module, self.direction)]; the name must be a string. *)
Definition hasattr (m : PyModule) (d : option Direction) : M bool :=
  match d with
  | Some d => ret (match getattr m d with Some _ => true | None => false end)
  | None => raise TypeError
  end.

(** [await getattr(module, self.direction)()] *)
Definition call (module_name : string) (m : PyModule) (d : option Direction)
  : M unit :=
  match d with
  | Some d =>
      match getattr m d with
      | Some op =>
          fun st =>
            let '(r, sch) := op (schema st) in
            (r,
             {| table := table st; serial := serial st; clock := clock st;
                schema := sch |},
             [Called module_name (direction_name d)])
      | None => raise TypeError
      end
  | None => raise TypeError
  end.

(** *** The printed lines *)

Definition msg_exists (name : string) : string :=
  "Migration " ++ colored name "yellow" ++ " already exists, "
    ++ colored "skipping" "cyan".

Definition msg_missing (name : string) : string :=
  "Migration " ++ colored name "yellow" ++ " does not exist, "
    ++ colored "skipping" "cyan".

Definition msg_going (self : Terminator) (name : string) : string :=
  "Migration " ++ colored name "yellow" ++ " going "
    ++ colored (direction_text self) "magenta".

Definition msg_faking (name : string) : string :=
  "Faking " ++ colored name "yellow".

Definition msg_importing (module_name : string) : string :=
  "Importing " ++ colored module_name "blue".

Definition msg_went (self : Terminator) (name : string) : string :=
  "Migration " ++ colored name "yellow" ++ " went "
    ++ colored (direction_text self) "magenta".

Definition msg_nothing (self : Terminator) : string :=
  "Nothing to go " ++ colored (direction_text self) "magenta" ++ ".".

Definition msg_count (self : Terminator) (available : Z) : string :=
  "Count " ++ colored (Py.str (count self)) "green"
    ++ " greater than available migrations. Going "
    ++ colored (direction_text self) "magenta" ++ " "
    ++ colored (Py.str available) "red" ++ " times.".

(** *** [Terminator] *)

(** The loop of [_retreive_filenames]: the base names of the [.py] files
    other than the ignored ones, in listing order. *)
Fixpoint collect (files : list string) : list string :=
  match files with
  | [] => []
  | f :: files' =>
      let splits := Py.rsplit1 "." f in
      if (Py.len splits <=? 1)
         || negb (String.eqb (nth 1%nat splits "") "py")
         || existsb (String.eqb (nth 0%nat splits "")) IGNORED_FILES
      then collect files'
      else nth 0%nat splits "" :: collect files'
  end.

(** [int(fname.split("_")[0])] *)
Definition ordinal (fname : string) : option Z :=
  Py.int (Py.first (Py.split "_" fname)).

Definition _retreive_filenames (self : Terminator) : M (list string) :=
  files <- lift_option (listdir (folder self ++ "/" ++ "migrations")) OSError ;;
  let filenames := collect files in
  lift_option (Py.sorted filenames ordinal) ValueError.

Definition _update_migration_table (self : Terminator) (name : string)
  : M unit :=
  if direction_is self Up then insert_migration name
  else delete_migration name.

Definition _perform_single_migration (self : Terminator) (name : string)
  : M bool :=
  rows <- select_id_where_migration name ;;
  let migration_exists := Py.len rows =? 1 in
  if migration_exists && direction_is self Up then
    print (msg_exists name) ;;
    ret false
  else if negb migration_exists && direction_is self Down then
    print (msg_missing name) ;;
    ret false
  else
    print (msg_going self name) ;;
    (if fake self then
       _update_migration_table self name ;;
       print (msg_faking name)
     else
       let module_name := folder self ++ "." ++ "migrations" ++ "." ++ name in
       print (msg_importing module_name) ;;
       migration_module <- load module_name ;;
       has <- hasattr migration_module (direction self) ;;
       if has then
         call module_name migration_module (direction self) ;;
         _update_migration_table self name
       else raise DirectionNotFoundException) ;;
    print (msg_went self name) ;;
    ret true.

Definition _get_latest_migration (self : Terminator) : M (option Row) :=
  rows <- select_latest ;;
  match rows with
  | r :: _ => ret (Some r)
  | [] => ret None
  end.

Definition _perform_migrations (self0 : Terminator) (d : Direction) : M bool :=
  let self := set_direction self0 d in
  listed <- _retreive_filenames self ;;
  let filenames := if direction_is self Down then rev listed else listed in
  if Py.len filenames <=? 0 then ret true
  else
    latest_migration <- _get_latest_migration self ;;
    let run (start : Z) : M bool :=
      if (match latest_migration with None => true | Some _ => false end)
         && direction_is self Down
      then
        print (msg_nothing self) ;;
        ret false
      else
        let stop :=
          if count self =? 0 then Py.len filenames
          else start + count self in
        let migrations_to_complete := Py.slice filenames start stop in
        (if count self >? Py.len migrations_to_complete then
           print (msg_count self (Py.len migrations_to_complete))
         else ret tt) ;;
        for_each migrations_to_complete (_perform_single_migration self) ;;
        ret true
    in
    match latest_migration with
    | Some row =>
        migration_index <-
          lift_option (Py.index (migration row) filenames) ValueError ;;
        if (migration_index =? Py.len filenames - 1) && direction_is self Up
        then
          print (msg_nothing self) ;;
          ret false
        else if direction_is self Up then run (migration_index + 1)
        else run migration_index
    | None => run 0
    end.

End Engine.

Arguments table {Schema} _.
Arguments serial {Schema} _.
Arguments clock {Schema} _.
Arguments schema {Schema} _.
Arguments mkStore {Schema} _ _ _ _.
Arguments mkModule {Schema} _ _.
Arguments attr_up {Schema} _.
Arguments attr_down {Schema} _.
Arguments getattr {Schema} _ _.
Arguments ret {Schema A} _ _.
Arguments raise {Schema A} _ _.
Arguments bind {Schema A B} _ _ _.
Arguments emit {Schema} _ _.
Arguments print {Schema} _ _.
Arguments lift_option {Schema A} _ _ _.
Arguments for_each {Schema A B} _ _ _.
Arguments select_id_where_migration {Schema} _ _.
Arguments select_latest {Schema} _.
Arguments insert_migration {Schema} _ _.
Arguments delete_migration {Schema} _ _ _.
Arguments load {Schema} _ _ _.
Arguments hasattr {Schema} _ _ _.
Arguments call {Schema} _ _ _ _.
Arguments _retreive_filenames {Schema} _ _ _.
Arguments _update_migration_table {Schema} _ _ _ _.
Arguments _perform_single_migration {Schema} _ _ _ _ _ _.
Arguments _get_latest_migration {Schema} _ _.
Arguments _perform_migrations {Schema} _ _ _ _ _ _ _.

(** ** What is observed of a run *)

(** The events that change the ledger, and those that run code of a unit. *)
Definition is_mutation (e : event) : bool :=
  match e with Executed _ => true | _ => false end.

Definition is_unit_code (e : event) : bool :=
  match e with Imported _ | Called _ _ => true | _ => false end.

Definition quiet (tr : list event) : Prop :=
  Forall (fun e => is_mutation e = false /\ is_unit_code e = false) tr.

(** The units handed to [_perform_single_migration], in order: each call
    starts with the existence query for its unit. *)
Fixpoint attempted (tr : list event) : list string :=
  match tr with
  | [] => []
  | Fetched (SelectIdWhereMigration name) :: tr' => name :: attempted tr'
  | _ :: tr' => attempted tr'
  end.

(** The operations of units that were called, in order: module and
    attribute. *)
Fixpoint called (tr : list event) : list (string * string) :=
  match tr with
  | [] => []
  | Called module_name attr :: tr' => (module_name, attr) :: called tr'
  | _ :: tr' => called tr'
  end.

Definition has_row {Schema : Type} (name : string) (st : Store Schema) : bool :=
  existsb (matching name) (table st).

(** [a] may stand before [b] in a list sorted by ordinal. *)
Definition ordinal_le (a b : string) : Prop :=
  match ordinal a, ordinal b with
  | Some x, Some y => x <= y
  | _, _ => False
  end.

Definition has_ordinal (k : Z) (name : string) : bool :=
  match ordinal name with
  | Some x => x =? k
  | None => false
  end.

(** The order the specification words: ascending by ordinal, names of equal
    ordinal in string order. *)
Definition spec_before (a b : string) : Prop :=
  match ordinal a, ordinal b with
  | Some x, Some y => x < y \/ (x = y /\ String.leb a b = true)
  | _, _ => False
  end.

(** [p] may stand before [q] in a list of keyed elements sorted by key. *)
Definition key_le {A : Type} (p q : Z * A) : Prop := fst p <= fst q.

(** No name exceeds the name of [r]. *)
Definition name_ge (r q : Row) : Prop :=
  String.leb (migration q) (migration r) = true.


Section Steps.

Context {Schema : Type}.

Implicit Types (self : Terminator) (st : Store Schema) (name : string).

(** The name [_perform_single_migration] imports a unit under. *)
Definition module_of self name : string :=
  folder self ++ "." ++ "migrations" ++ "." ++ name.

Definition with_row st name : Store Schema :=
  {| table := table st ++ [mkRow (serial st) name (clock st)];
     serial := serial st + 1;
     clock := clock st + 1;
     schema := schema st |}.

Definition with_schema st (sch : Schema) : Store Schema :=
  {| table := table st; serial := serial st; clock := clock st;
     schema := sch |}.

Definition without_row st name : Store Schema :=
  {| table := delete_one name (table st);
     serial := serial st;
     clock := clock st;
     schema := schema st |}.

(** A unit that is not skipped, in a run that is not faked. *)
Definition acted (d : Direction) name st : bool :=
  match d with
  | Up => negb (has_row name st)
  | Down => has_row name st
  end.

Definition recorded (d : Direction) st name : Store Schema :=
  match d with
  | Up => with_row st name
  | Down => without_row st name
  end.

(** Whether the store takes the ledger statement of a direction. *)
Definition accepted (bounded_delete : bool) (d : Direction) : bool :=
  match d with
  | Up => true
  | Down => bounded_delete
  end.

Definition mutation (d : Direction) name : sql :=
  match d with
  | Up => InsertMigration name
  | Down => DeleteMigration name
  end.

(** The list [_perform_migrations] walks: reversed for [down]. *)
Definition directed (d : Direction) (listed : list string) : list string :=
  match d with
  | Up => listed
  | Down => rev listed
  end.

(** The row [_get_latest_migration] returns. *)
Definition latest_row st : option Row :=
  match order_by_migration_desc (table st) with
  | r :: _ => Some r
  | [] => None
  end.

(** Where the window starts when the run gets to its loop: at 0 with no
    latest row (going up), after the latest unit going up unless it is the
    last one, at the latest unit going down. *)
Inductive starts (filenames : list string)
  : Direction -> option Row -> Z -> Prop :=
| starts_fresh : starts filenames Up None 0
| starts_up (r : Row) (i : Z) :
    Py.index (migration r) filenames = Some i ->
    i <> Py.len filenames - 1 ->
    starts filenames Up (Some r) (i + 1)
| starts_down (r : Row) (i : Z) :
    Py.index (migration r) filenames = Some i ->
    starts filenames Down (Some r) i.

(** The bounds and the window of [_perform_migrations] for a start. *)
Definition stop_of self (filenames : list string) (start : Z) : Z :=
  if count self =? 0 then Py.len filenames else start + count self.

Definition window_of self (filenames : list string) (start : Z) : list string :=
  Py.slice filenames start (stop_of self filenames start).

(** The start and the window as the specification words them for every
    direction and latest row: from 0 with no latest row, after the latest unit
    going up, at it going down. *)
Definition claimed_start (d : Direction) (filenames : list string)
  (latest : option Row) : option Z :=
  match latest with
  | None => Some 0
  | Some r =>
      option_map (fun i => match d with Up => i + 1 | Down => i end)
        (Py.index (migration r) filenames)
  end.

Definition claimed_window self (d : Direction) (filenames : list string)
  (latest : option Row) : option (list string) :=
  option_map (window_of self filenames) (claimed_start d filenames latest).

(** The line printed when the count exceeds the window. *)
Definition notice (colored : string -> string -> string) self
  (w : list string) : list event :=
  if count self >? Py.len w then [Printed (msg_count colored self (Py.len w))]
  else [].

(** The end of [_perform_migrations]: what the loop raised, or [True]. *)
Definition after_loop (before : list event)
  (r : result unit * Store Schema * list event)
  : result bool * Store Schema * list event :=
  match r with
  | (Ok _, st, tr) => (Ok true, st, (before ++ tr)%list)
  | (Raise e, st, tr) => (Raise e, st, (before ++ tr)%list)
  end.

(** The loop of a run that starts at [start], with what precedes it. *)
Definition loop_from (colored : string -> string -> string)
  (import_module : string -> option (PyModule Schema))
  (bounded_delete : bool)
  self (filenames : list string) (start : Z) st
  : result bool * Store Schema * list event :=
  let w := window_of self filenames start in
  after_loop (Fetched SelectLatest :: notice colored self w)
    (for_each w
       (_perform_single_migration colored import_module bounded_delete self)
       st).

End Steps.

(** ** A small project to run the engine on *)

Module Demo.

Definition plain (text color : string) : string := text.

Definition dir (files : list string) (path : string) : option (list string) :=
  if String.eqb path "arnold_config/migrations" then Some files else None.

Definition noop : unit_op unit := fun s => (Ok tt, s).

Definition both : PyModule unit := mkModule (Some noop) (Some noop).

Definition only_down : PyModule unit := mkModule None (Some noop).

(** Every unit has both operations, except [2_add_email], which has no
    [up]. *)
Definition modules (name : string) : option (PyModule unit) :=
  if String.eqb name "arnold_config.migrations.2_add_email" then Some only_down
  else Some both.

Definition complete (name : string) : option (PyModule unit) := Some both.

(** An operation that raises, and a project whose [2_add_email] raises going
    up. *)
Definition failing : unit_op unit := fun s => (Raise UnitException, s).

Definition breaks_up : PyModule unit := mkModule (Some failing) (Some noop).

Definition faulty (name : string) : option (PyModule unit) :=
  if String.eqb name "arnold_config.migrations.2_add_email" then Some breaks_up
  else Some both.

Fixpoint rows_from (n : Z) (names : list string) : list Row :=
  match names with
  | [] => []
  | name :: names' => mkRow n name n :: rows_from (n + 1) names'
  end.

(** The store after the named units were recorded one by one. *)
Definition store (names : list string) : Store unit :=
  mkStore (rows_from 1 names) (Py.len names + 1) (Py.len names + 1) tt.

Definition fresh : Store unit := store [].

Definition args (n : Z) (fake_flag : bool) : Terminator :=
  mkTerminator fake_flag n "arnold_config" None.

Definition three : list string :=
  ["2_add_email.py"; "__init__.py"; "1_create_users.py"; "3_add_index.py"].

End Demo.

(** The test of the loop of [_retreive_filenames] on one file. *)
Definition candidate (f : string) : list string :=
  match Py.rsplit_last "." f with
  | Some (a, b) =>
      if String.eqb b "py" && negb (String.eqb a "__init__") then [a] else []
  | None => []
  end.

(** A string of decimal digits, and the number such digits write after the
    number [acc]. *)
Fixpoint all_digits (s : string) : bool :=
  match s with
  | EmptyString => true
  | String c s' =>
      match Py.digit c with
      | Some _ => all_digits s'
      | None => false
      end
  end.

Fixpoint digits_value (s : string) (acc : Z) : Z :=
  match s with
  | EmptyString => acc
  | String c s' =>
      match Py.digit c with
      | Some d => digits_value s' (10 * acc + d)
      | None => acc
      end
  end.

(** ** Ledgers and catalogs that agree *)

Section Ledger.

Context {Schema : Type}.

(** The names recorded in the ledger, oldest row first. *)
Definition names (st : Store Schema) : list string :=
  map migration (table st).

(** A sequence whose string order is its order: each name is below the ones
    after it.  Names with ordinals of one width are of this kind; ["9_x"]
    before ["10_y"] is not. *)
Definition ascending (listed : list string) : Prop :=
  StronglySorted (fun a b => String.ltb a b = true) listed.

(** A unit the run can handle without raising: the run is faked, or the unit
    imports, has the operation, and the operation returns. *)
Definition unit_ready (import_module : string -> option (PyModule Schema))
  (self : Terminator) (d : Direction) (name : string) : Prop :=
  fake self = true
  \/ exists (m : PyModule Schema) (op : unit_op Schema),
       import_module (module_of self name) = Some m
       /\ getattr m d = Some op
       /\ forall s, fst (op s) = Ok tt.

(** The units a run may touch when the latest row names position [p] of the
    sequence: those after it going up, those up to it going down. *)
Definition reach (d : Direction) (listed : list string) (p : nat)
  : list string :=
  match d with
  | Up => skipn (S p) listed
  | Down => firstn (S p) listed
  end.

End Ledger.

(** * Verification *)

(** ** The builtins *)

Example int_examples :
  map Py.int [" 12 "; "+5"; "-3"; "- 3"; "1_0"; "1__0"; "_1"; "1_"; "007"; ""; "1 2"]
  = [Some 12; Some 5; Some (-3); None; Some 10; None; None; None; Some 7; None; None].
Proof. reflexivity. Qed.

Example rsplit_examples :
  map (Py.rsplit1 ".") ["a.b.py"; "py"; ".py"; "a."]
  = [["a.b"; "py"]; ["py"]; [""; "py"]; ["a"; ""]].
Proof. reflexivity. Qed.

Example split_examples :
  map (Py.split "_") ["1_a_b"; "abc"; "_x"; ""]
  = [["1"; "a"; "b"]; ["abc"]; [""; "x"]; [""]].
Proof. reflexivity. Qed.

Example slice_examples :
  map (fun '(a, b) => Py.slice [0; 1; 2; 3] a b)
      [(0, -1); (2, 1); (3, -5); (1, -1); (4, 3); (0, 10); (2, -3)]
  = [[0; 1; 2]; []; []; [1; 2]; []; [0; 1; 2; 3]; []].
Proof. reflexivity. Qed.

Example str_examples : map Py.str [0; 7; -12; 105] = ["0"; "7"; "-12"; "105"].
Proof. reflexivity. Qed.

Lemma rsplit_last_join (sep : ascii) (s a b : string) :
  Py.rsplit_last sep s = Some (a, b) -> s = a ++ String sep b.
Proof.
  revert a b. induction s as [|c s IH]; simpl; intros a b H; [discriminate|].
  destruct (Py.rsplit_last sep s) as [[a' b']|].
  - inversion H; subst. simpl. now rewrite (IH a' b).
  - destruct (Ascii.eqb_spec c sep); [|discriminate].
    inversion H; subst. reflexivity.
Qed.

Lemma rsplit_last_none (sep : ascii) (a b : string) :
  Py.rsplit_last sep b = None ->
  Py.rsplit_last sep (a ++ String sep b) = Some (a, b).
Proof.
  intros Hb. induction a as [|c a IH]; simpl.
  - rewrite Hb. now rewrite Ascii.eqb_refl.
  - now rewrite IH.
Qed.

Lemma collect_cons (f : string) (files : list string) :
  collect (f :: files) =
  match Py.rsplit_last "." f with
  | Some (a, b) =>
      if String.eqb b "py" && negb (String.eqb a "__init__")
      then a :: collect files else collect files
  | None => collect files
  end.
Proof.
  simpl. unfold Py.rsplit1.
  destruct (Py.rsplit_last "." f) as [[a b]|]; simpl; [|reflexivity].
  destruct (String.eqb b "py"); simpl; [|reflexivity].
  destruct (String.eqb a "__init__"); reflexivity.
Qed.

(** A file passes the filter of [_retreive_filenames] exactly when it is
    [base ++ ".py"] for a base name that is not ignored. *)
Lemma collect_In (files : list string) (base : string) :
  In base (collect files) <-> In (base ++ ".py") files /\ base <> "__init__".
Proof.
  induction files as [|f files IH]; [simpl; tauto|].
  rewrite collect_cons.
  destruct (Py.rsplit_last "." f) as [[a b]|] eqn:E.
  - pose proof (rsplit_last_join _ _ _ _ E) as Hf.
    destruct (String.eqb_spec b "py") as [->|Hb]; simpl.
    + destruct (String.eqb_spec a "__init__") as [->|Ha]; simpl.
      * rewrite IH. split; [tauto|]. intros [[H|H] Hn]; [|tauto].
        exfalso. rewrite Hf in H.
        change ("__init__" ++ ".py" = base ++ ".py") in H.
        assert (Hr: Py.rsplit_last "." (base ++ ".py") = Some ("__init__", "py"))
          by (rewrite <- H; reflexivity).
        rewrite (rsplit_last_none "." base "py" eq_refl) in Hr. congruence.
      * rewrite IH. split.
        -- intros [H|H]; [subst; tauto|tauto].
        -- intros [[H|H] Hn]; [|tauto]. left.
           assert (Hr: Py.rsplit_last "." (base ++ ".py") = Some (a, "py"))
             by (rewrite <- H; exact E).
           rewrite (rsplit_last_none "." base "py" eq_refl) in Hr. congruence.
    + rewrite IH. split; [tauto|]. intros [[H|H] Hn]; [|tauto].
      exfalso. rewrite H in E.
      rewrite (rsplit_last_none "." base "py" eq_refl) in E. congruence.
  - rewrite IH. split; [simpl; tauto|]. intros [[H|H] Hn]; [|tauto].
    exfalso. rewrite H in E.
    rewrite (rsplit_last_none "." base "py" eq_refl) in E. discriminate.
Qed.

Lemma collect_NoDup (files : list string) :
  NoDup files -> NoDup (collect files).
Proof.
  induction files as [|f files IH]; intros H; [constructor|].
  inversion H as [|? ? Hf Hfiles]; subst.
  rewrite collect_cons.
  destruct (Py.rsplit_last "." f) as [[a b]|] eqn:E; auto.
  destruct (String.eqb_spec b "py") as [->|]; simpl; auto.
  destruct (String.eqb a "__init__"); simpl; auto.
  constructor; auto.
  intros Hin. apply collect_In in Hin. apply Hf.
  now rewrite (rsplit_last_join _ _ _ _ E).
Qed.

(** *** [sorted] with a key *)

Section Sorted.

Context {A : Type} (key : A -> option Z).

Lemma keyed_Some (l : list A) (kl : list (Z * A)) :
  Py.keyed key l = Some kl ->
  map snd kl = l /\ Forall (fun p => key (snd p) = Some (fst p)) kl.
Proof.
  revert kl. induction l as [|x l IH]; simpl; intros kl H.
  - inversion H; subst. split; [reflexivity|constructor].
  - destruct (key x) as [k|] eqn:Hk; [|discriminate].
    destruct (Py.keyed key l) as [kl'|]; [|discriminate].
    inversion H; subst. destruct (IH kl' eq_refl) as [Hm Hf].
    split; [simpl; now rewrite Hm|constructor; auto].
Qed.

Lemma keyed_None (l : list A) :
  Py.keyed key l = None <-> exists x, In x l /\ key x = None.
Proof.
  induction l as [|x l IH]; simpl.
  - split; [discriminate|intros [x [[] _]]].
  - destruct (key x) as [k|] eqn:Hk.
    + destruct (Py.keyed key l) as [kl|]; simpl.
      * split; [discriminate|]. intros [y [[->|Hy] Hn]]; [congruence|].
        assert (Hc: Some kl = None) by (apply IH; now exists y).
        discriminate Hc.
      * split; [|reflexivity]. intros _.
        destruct (proj1 IH eq_refl) as [y [Hy Hn]]. exists y. auto.
    + split; [|reflexivity]. intros _. exists x. auto.
Qed.

Lemma insert_Permutation (p : Z * A) (l : list (Z * A)) :
  Permutation (p :: l) (Py.insert p l).
Proof.
  induction l as [|q l IH]; simpl; [reflexivity|].
  destruct (fst p <=? fst q); [reflexivity|].
  rewrite perm_swap. now constructor.
Qed.

Lemma sort_keyed_Permutation (l : list (Z * A)) :
  Permutation l (Py.sort_keyed l).
Proof.
  induction l as [|p l IH]; simpl; [constructor|].
  rewrite <- insert_Permutation. now constructor.
Qed.

Lemma insert_sorted (p : Z * A) (l : list (Z * A)) :
  StronglySorted key_le l -> StronglySorted key_le (Py.insert p l).
Proof.
  induction 1 as [|q l Hs IH Hq]; simpl.
  - repeat constructor.
  - destruct (Z.leb_spec (fst p) (fst q)) as [Hle|Hlt].
    + constructor; [now constructor|].
      constructor; [exact Hle|].
      eapply Forall_impl; [|exact Hq]. unfold key_le. intros; lia.
    + constructor; [exact IH|].
      rewrite <- insert_Permutation. constructor; [unfold key_le; lia|exact Hq].
Qed.

Lemma sort_keyed_sorted (l : list (Z * A)) :
  StronglySorted key_le (Py.sort_keyed l).
Proof.
  induction l; simpl; [constructor|now apply insert_sorted].
Qed.

(** Stability: the elements of one key come out in the order they went in. *)
Lemma insert_stable (k : Z) (p : Z * A) (l : list (Z * A)) :
  filter (fun q => fst q =? k) (Py.insert p l)
  = filter (fun q => fst q =? k) (p :: l).
Proof.
  induction l as [|q l IH]; [reflexivity|].
  cbn [Py.insert]. destruct (Z.leb_spec (fst p) (fst q)); [reflexivity|].
  cbn [filter] in *. rewrite IH.
  destruct (Z.eqb_spec (fst q) k), (Z.eqb_spec (fst p) k); try reflexivity; lia.
Qed.

Lemma sort_keyed_stable (k : Z) (l : list (Z * A)) :
  filter (fun q => fst q =? k) (Py.sort_keyed l)
  = filter (fun q => fst q =? k) l.
Proof.
  induction l as [|p l IH]; [reflexivity|].
  cbn [Py.sort_keyed fold_right]. rewrite insert_stable.
  cbn [filter]. fold (Py.sort_keyed l). now rewrite IH.
Qed.

Lemma filter_map_snd (k : Z) (kl : list (Z * A)) :
  Forall (fun p => key (snd p) = Some (fst p)) kl ->
  filter (fun x => match key x with Some v => v =? k | None => false end)
         (map snd kl)
  = map snd (filter (fun q => fst q =? k) kl).
Proof.
  induction 1 as [|p kl Hp _ IH]; [reflexivity|].
  cbn [map filter]. rewrite Hp, IH. now destruct (fst p =? k).
Qed.

End Sorted.

(** What a successful [sorted(filenames, key=...)] returns. *)
Lemma sorted_by_ordinal (l names : list string) :
  Py.sorted l ordinal = Some names ->
  Permutation l names
  /\ StronglySorted ordinal_le names
  /\ forall k, filter (has_ordinal k) names = filter (has_ordinal k) l.
Proof.
  unfold Py.sorted. destruct (Py.keyed ordinal l) as [kl|] eqn:E; [|discriminate].
  intros H; inversion H; subst; clear H.
  destruct (keyed_Some _ _ _ E) as [Hm Hk].
  assert (Hk': Forall (fun p => ordinal (snd p) = Some (fst p)) (Py.sort_keyed kl)).
  { rewrite Forall_forall in *. intros p Hp. apply Hk.
    eapply Permutation_in; [symmetry; apply sort_keyed_Permutation|exact Hp]. }
  split; [|split].
  - rewrite <- Hm. apply Permutation_map, sort_keyed_Permutation.
  - pose proof (sort_keyed_sorted kl) as Hs.
    induction Hs as [|p s Hs IH Hp]; [constructor|].
    inversion Hk' as [|? ? Hp' Hk'']; subst.
    cbn [map]. constructor; [now apply IH|].
    rewrite Forall_map. rewrite Forall_forall in *. intros q Hq.
    unfold ordinal_le. rewrite Hp', (Hk'' q Hq). now apply Hp.
  - intros k. unfold has_ordinal.
    rewrite (filter_map_snd ordinal k _ Hk'), sort_keyed_stable.
    rewrite <- (filter_map_snd ordinal k _ Hk). now rewrite Hm.
Qed.

Lemma sorted_total (l : list string) :
  Forall (fun name => ordinal name <> None) l ->
  exists names, Py.sorted l ordinal = Some names.
Proof.
  intros H. unfold Py.sorted.
  destruct (Py.keyed ordinal l) as [kl|] eqn:E; [eexists; reflexivity|].
  apply keyed_None in E. destruct E as [x [Hx Hn]].
  rewrite Forall_forall in H. now elim (H x Hx).
Qed.

(** *** [index] and slices *)

Lemma len_nonneg {A : Type} (l : list A) : 0 <= Py.len l.
Proof. unfold Py.len. lia. Qed.

Lemma len_app {A : Type} (l1 l2 : list A) :
  Py.len (l1 ++ l2) = Py.len l1 + Py.len l2.
Proof. unfold Py.len. rewrite length_app. lia. Qed.

Lemma index_None (x : string) (l : list string) :
  Py.index x l = None <-> ~ In x l.
Proof.
  induction l as [|y l IH]; simpl; [tauto|].
  destruct (String.eqb_spec y x) as [->|Hn].
  - split; [discriminate|tauto].
  - destruct (Py.index x l) as [j|]; simpl.
    + split; [discriminate|]. intros H.
      assert (Hx: ~ In x l) by tauto.
      apply IH in Hx. discriminate Hx.
    + split; [|reflexivity]. intros _ [H|H]; [congruence|].
      exact (proj1 IH eq_refl H).
Qed.

Lemma index_Some (x : string) (l : list string) (i : Z) :
  Py.index x l = Some i ->
  0 <= i < Py.len l
  /\ nth_error l (Z.to_nat i) = Some x
  /\ ~ In x (firstn (Z.to_nat i) l).
Proof.
  revert i. induction l as [|y l IH]; simpl; intros i H; [discriminate|].
  destruct (String.eqb_spec y x) as [->|Hn].
  - inversion H; subst. unfold Py.len. simpl. repeat split; try lia; tauto.
  - destruct (Py.index x l) as [j|]; [|discriminate].
    inversion H; subst. destruct (IH j eq_refl) as [Hj [Hx Hf]].
    unfold Py.len in *. cbn [List.length].
    replace (Z.to_nat (Z.succ j)) with (S (Z.to_nat j)) by lia.
    repeat split; try lia; [exact Hx|].
    simpl. intros [E|E]; [congruence|tauto].
Qed.

(** In a list without repetition, the position of an element is its index. *)
Lemma index_NoDup (x : string) (front back : list string) :
  NoDup (front ++ x :: back) ->
  Py.index x (front ++ x :: back) = Some (Py.len front).
Proof.
  induction front as [|y front IH]; simpl; intros H.
  - now rewrite String.eqb_refl.
  - inversion H as [|? ? Hy Hnd]; subst.
    destruct (String.eqb_spec y x) as [->|Hn].
    + exfalso. apply Hy, in_or_app. right. now left.
    + rewrite (IH Hnd). simpl. f_equal. unfold Py.len. cbn [List.length]. lia.
Qed.

Lemma slice_all {A : Type} (l : list A) (start : Z) :
  0 <= start ->
  Py.slice l start (Py.len l) = skipn (Z.to_nat start) l.
Proof.
  intros Hs. unfold Py.slice, Py.bound.
  pose proof (len_nonneg l) as Hl.
  replace (start <? 0) with false by (symmetry; apply Z.ltb_ge; lia).
  replace (Py.len l <? 0) with false by (symmetry; apply Z.ltb_ge; lia).
  rewrite Z.min_id.
  destruct (Z.le_gt_cases start (Py.len l)) as [Hle|Hgt].
  - rewrite Z.min_l by lia. apply firstn_all2. rewrite length_skipn.
    unfold Py.len in *. lia.
  - rewrite Z.min_r by lia. rewrite !skipn_all2 by (unfold Py.len in *; lia).
    apply firstn_nil.
Qed.

Lemma slice_count {A : Type} (l : list A) (start n : Z) :
  0 <= start -> 0 <= n ->
  Py.slice l start (start + n) = firstn (Z.to_nat n) (skipn (Z.to_nat start) l).
Proof.
  intros Hs Hn. unfold Py.slice, Py.bound.
  pose proof (len_nonneg l) as Hl.
  replace (start <? 0) with false by (symmetry; apply Z.ltb_ge; lia).
  replace (start + n <? 0) with false by (symmetry; apply Z.ltb_ge; lia).
  destruct (Z.le_gt_cases start (Py.len l)) as [Hle|Hgt].
  - rewrite (Z.min_l start) by lia.
    destruct (Z.le_gt_cases (start + n) (Py.len l)) as [Hle'|Hgt'].
    + rewrite Z.min_l by lia. f_equal. lia.
    + rewrite Z.min_r by lia.
      rewrite !firstn_all2; try reflexivity;
        rewrite length_skipn; unfold Py.len in *; lia.
  - rewrite !Z.min_r by lia.
    rewrite !skipn_all2 by (unfold Py.len in *; lia).
    now rewrite !firstn_nil.
Qed.



(** Code points compare as their numbers do, so string order is transitive. *)
Lemma string_compare_trans (c : comparison) (s1 s2 s3 : string) :
  String.compare s1 s2 = c -> String.compare s2 s3 = c -> c <> Eq ->
  String.compare s1 s3 = c.
Proof.
  revert s2 s3.
  induction s1 as [|a s1 IH]; intros [|b s2] [|d s3]; simpl;
    try congruence.
  unfold Ascii.compare.
  destruct (N.compare_spec (N_of_ascii a) (N_of_ascii b)) as [Hab|Hab|Hab];
    destruct (N.compare_spec (N_of_ascii b) (N_of_ascii d)) as [Hbd|Hbd|Hbd];
    intros H1 H2 Hc; subst c; try congruence.
  - rewrite Hab, Hbd, N.compare_refl. eapply IH; eauto.
  - rewrite Hab. now apply N.compare_lt_iff in Hbd as ->.
  - rewrite Hab. now apply N.compare_gt_iff in Hbd as ->.
  - rewrite <- Hbd. now apply N.compare_lt_iff in Hab as ->.
  - assert (H: (N_of_ascii a < N_of_ascii d)%N) by lia.
    now apply N.compare_lt_iff in H as ->.
  - rewrite <- Hbd. now apply N.compare_gt_iff in Hab as ->.
  - assert (H: (N_of_ascii d < N_of_ascii a)%N) by lia.
    now apply N.compare_gt_iff in H as ->.
Qed.

Lemma string_compare_refl (s : string) : String.compare s s = Eq.
Proof.
  induction s as [|a s IH]; simpl; [reflexivity|].
  unfold Ascii.compare. now rewrite N.compare_refl.
Qed.

Lemma string_leb_refl (s : string) : String.leb s s = true.
Proof. unfold String.leb. now rewrite string_compare_refl. Qed.

Lemma string_leb_trans (s1 s2 s3 : string) :
  String.leb s1 s2 = true -> String.leb s2 s3 = true -> String.leb s1 s3 = true.
Proof.
  unfold String.leb.
  destruct (String.compare s1 s2) eqn:E12; try discriminate;
    destruct (String.compare s2 s3) eqn:E23; try discriminate; intros _ _.
  - apply String.compare_eq_iff in E12, E23. subst.
    now rewrite string_compare_refl.
  - apply String.compare_eq_iff in E12. subst. now rewrite E23.
  - apply String.compare_eq_iff in E23. subst. now rewrite E12.
  - assert (Hlt: Lt <> Eq) by discriminate.
    now rewrite (string_compare_trans Lt _ _ _ E12 E23 Hlt).
Qed.

(** ** Ordinals are numbers *)

Lemma digit_range (c : ascii) (d : Z) :
  Py.digit c = Some d ->
  0 <= d <= 9 /\ Ascii.eqb c "_" = false /\ Py.isspace c = false
  /\ (d = 0 <-> c = "0"%char).
Proof.
  unfold Py.digit, Py.isspace. intros H.
  destruct ((48 <=? nat_of_ascii c)%nat && (nat_of_ascii c <=? 57)%nat) eqn:E;
    [|discriminate].
  inversion H; subst d; clear H.
  apply andb_true_iff in E. destruct E as [E1 E2].
  apply Nat.leb_le in E1, E2.
  split; [lia|]. split; [|split].
  - destruct (Ascii.eqb_spec c "_") as [->|]; [|reflexivity].
    change (nat_of_ascii "_") with 95%nat in E2. lia.
  - repeat rewrite orb_false_iff. repeat split.
    + apply andb_false_iff. right. apply Nat.leb_gt. lia.
    + apply Nat.eqb_neq. lia.
    + apply Nat.eqb_neq. lia.
    + apply Nat.eqb_neq. lia.
  - split.
    + intros H0. assert (Hn: nat_of_ascii c = 48%nat) by lia.
      rewrite <- (ascii_nat_embedding c), Hn. reflexivity.
    + intros ->. reflexivity.
Qed.

Lemma int_digits_all (s : string) (acc : Z) :
  all_digits s = true -> Py.int_digits s acc = Some (digits_value s acc).
Proof.
  revert acc. induction s as [|c s IH]; intros acc H; [reflexivity|].
  cbn [all_digits] in H. cbn [Py.int_digits digits_value].
  destruct (Py.digit c) as [d|]; [|discriminate]. now apply IH.
Qed.

Lemma digits_value_bounds (s : string) (acc : Z) :
  all_digits s = true -> 0 <= acc ->
  acc * 10 ^ Z.of_nat (String.length s) <= digits_value s acc
  /\ digits_value s acc < (acc + 1) * 10 ^ Z.of_nat (String.length s).
Proof.
  revert acc. induction s as [|c s IH]; intros acc H Hacc.
  - cbn. lia.
  - cbn [all_digits] in H. cbn [digits_value String.length].
    destruct (Py.digit c) as [d|] eqn:Ed; [|discriminate].
    destruct (digit_range _ _ Ed) as [Hd _].
    destruct (IH (10 * acc + d) H) as [Hlo Hhi]; [lia|].
    rewrite Nat2Z.inj_succ, Z.pow_succ_r by lia.
    assert (Hp: 0 < 10 ^ Z.of_nat (String.length s))
      by (apply Z.pow_pos_nonneg; lia).
    split; nia.
Qed.

Lemma first_split_digits (ds rest : string) :
  all_digits ds = true ->
  Py.first (Py.split "_" (ds ++ String "_" rest)) = ds.
Proof.
  induction ds as [|c ds IH]; intros H.
  - cbn. reflexivity.
  - cbn [all_digits] in H. destruct (Py.digit c) as [d|] eqn:Ed; [|discriminate].
    destruct (digit_range _ _ Ed) as [_ [Hsep _]].
    cbn [append Py.split]. rewrite Hsep. specialize (IH H).
    destruct (Py.split "_" (ds ++ String "_" rest)) as [|h t].
    + cbn in IH. subst ds. reflexivity.
    + cbn in IH |- *. now subst h.
Qed.

Lemma int_leading_digit (c : ascii) (d : Z) (r : string) :
  Py.digit c = Some d ->
  Py.int (String c r) = Py.int_digits r d.
Proof.
  intros H. destruct (digit_range _ _ H) as [_ [_ [Hsp _]]].
  unfold Py.int. cbn [Py.lstrip]. rewrite Hsp.
  assert (Hsign: (match String c r with
                  | String "+" r0 => (false, r0)
                  | String "-" r0 => (true, r0)
                  | _ => (false, String c r)
                  end) = (false, String c r)).
  { destruct c as [[] [] [] [] [] [] [] []]; try reflexivity;
      cbv in H; discriminate H. }
  rewrite Hsign, H. now destruct (Py.int_digits r d).
Qed.

(** The ordinal of a name that starts with decimal digits and an
    underscore. *)
Lemma ordinal_of_digits (c : ascii) (d : Z) (ds rest : string) :
  Py.digit c = Some d -> all_digits ds = true ->
  ordinal (String c ds ++ String "_" rest) = Some (digits_value ds d).
Proof.
  intros Hc Hds. unfold ordinal.
  rewrite first_split_digits by (cbn [all_digits]; now rewrite Hc).
  rewrite (int_leading_digit _ _ _ Hc). now apply int_digits_all.
Qed.

(** X11: ordinals compare as numbers, not as strings.  Of two names that
    start with decimal digits without a leading zero, followed by an
    underscore, the one with fewer digits has the smaller ordinal, whatever
    the digits are: ["9_x"] comes before ["10_y"] in the sequence. *)
Theorem ordinal_grows_with_width
  (c1 c2 : ascii) (d1 d2 : Z) (ds1 ds2 rest1 rest2 : string) :
  Py.digit c1 = Some d1 -> c1 <> "0"%char -> all_digits ds1 = true ->
  Py.digit c2 = Some d2 -> c2 <> "0"%char -> all_digits ds2 = true ->
  (String.length ds1 < String.length ds2)%nat ->
  exists x y : Z,
    ordinal (String c1 ds1 ++ String "_" rest1) = Some x
    /\ ordinal (String c2 ds2 ++ String "_" rest2) = Some y
    /\ 0 < x < y.
Proof.
  intros H1 Hz1 Ha1 H2 Hz2 Ha2 Hlen.
  exists (digits_value ds1 d1), (digits_value ds2 d2).
  split; [now apply ordinal_of_digits|]. split; [now apply ordinal_of_digits|].
  destruct (digit_range _ _ H1) as [Hr1 [_ [_ Hzero1]]].
  destruct (digit_range _ _ H2) as [Hr2 [_ [_ Hzero2]]].
  assert (Hd1: 1 <= d1) by (destruct (Z.eq_dec d1 0); [tauto|lia]).
  assert (Hd2: 1 <= d2) by (destruct (Z.eq_dec d2 0); [tauto|lia]).
  destruct (digits_value_bounds ds1 d1 Ha1) as [Hlo1 Hhi1]; [lia|].
  destruct (digits_value_bounds ds2 d2 Ha2) as [Hlo2 Hhi2]; [lia|].
  assert (Hp1: 0 < 10 ^ Z.of_nat (String.length ds1))
    by (apply Z.pow_pos_nonneg; lia).
  assert (Hpow: 10 * 10 ^ Z.of_nat (String.length ds1)
                <= 10 ^ Z.of_nat (String.length ds2)).
  { rewrite <- Z.pow_succ_r by lia. apply Z.pow_le_mono_r; lia. }
  split; nia.
Qed.

(** ** The ledger *)

Lemma insert_desc_Permutation (r : Row) (rows : list Row) :
  Permutation (r :: rows) (insert_desc r rows).
Proof.
  induction rows as [|q rows IH]; simpl; [reflexivity|].
  destruct (String.leb (migration q) (migration r)); [reflexivity|].
  rewrite perm_swap. now constructor.
Qed.

Lemma order_by_Permutation (rows : list Row) :
  Permutation rows (order_by_migration_desc rows).
Proof.
  induction rows as [|r rows IH]; simpl; [constructor|].
  rewrite <- insert_desc_Permutation. now constructor.
Qed.

Lemma insert_desc_sorted (r : Row) (rows : list Row) :
  StronglySorted name_ge rows -> StronglySorted name_ge (insert_desc r rows).
Proof.
  induction 1 as [|q rows Hs IH Hq]; simpl.
  - repeat constructor.
  - destruct (String.leb (migration q) (migration r)) eqn:E.
    + constructor; [now constructor|].
      constructor; [exact E|].
      eapply Forall_impl; [|exact Hq]. unfold name_ge. intros x Hx.
      eapply string_leb_trans; eassumption.
    + constructor; [exact IH|].
      rewrite <- insert_desc_Permutation. constructor; [|exact Hq].
      unfold name_ge.
      destruct (String.leb_total (migration q) (migration r)); congruence.
Qed.

Lemma order_by_sorted (rows : list Row) :
  StronglySorted name_ge (order_by_migration_desc rows).
Proof.
  induction rows; simpl; [constructor|now apply insert_desc_sorted].
Qed.

(** The first row of [ORDER BY migration DESC] is a row of the table whose
    name no other name exceeds. *)
Lemma order_by_head (rows : list Row) (r : Row) (rest : list Row) :
  order_by_migration_desc rows = r :: rest ->
  In r rows /\ Forall (name_ge r) rows.
Proof.
  intros H. pose proof (order_by_Permutation rows) as Hp.
  pose proof (order_by_sorted rows) as Hs. rewrite H in Hp, Hs.
  split.
  - eapply Permutation_in; [symmetry; exact Hp|now left].
  - rewrite Hp. inversion Hs; subst. constructor; [|assumption].
    apply string_leb_refl.
Qed.

Lemma order_by_nil (rows : list Row) :
  order_by_migration_desc rows = [] <-> rows = [].
Proof.
  split; [|now intros ->].
  intros H. pose proof (order_by_Permutation rows) as Hp. rewrite H in Hp.
  now apply Permutation_sym, Permutation_nil in Hp.
Qed.

(** The existence query returns one row exactly when a row has the name. *)
Lemma exists_query (name : string) (rows : list Row) :
  (Py.len (firstn 1 (map id (filter (matching name) rows))) =? 1)
  = existsb (matching name) rows.
Proof.
  induction rows as [|r rows IH]; [reflexivity|].
  cbn [filter existsb]. destruct (matching name r); [reflexivity|exact IH].
Qed.

Section Facts.

Context {Schema : Type}.
Variable colored : string -> string -> string.
Variable listdir : string -> option (list string).
Variable import_module : string -> option (PyModule Schema).
Variable bounded_delete : bool.

Implicit Types (self : Terminator) (st : Store Schema) (name : string).

Ltac step :=
  unfold _perform_single_migration, _update_migration_table, bind,
    select_id_where_migration, print, emit, ret, raise, insert_migration,
    delete_migration, load, hasattr, call, direction_is, has_row in *;
  cbn [fst snd] in *.

(** *** One unit, going up *)

Lemma single_up_skip self name st :
  direction self = Some Up -> has_row name st = true ->
  _perform_single_migration colored import_module bounded_delete self name st
  = (Ok false, st,
     [Fetched (SelectIdWhereMigration name); Printed (msg_exists colored name)]).
Proof.
  intros Hd Hr. step. rewrite exists_query, Hr, Hd. reflexivity.
Qed.

Lemma single_up_fake self name st :
  direction self = Some Up -> fake self = true -> has_row name st = false ->
  _perform_single_migration colored import_module bounded_delete self name st
  = (Ok true, with_row st name,
     [Fetched (SelectIdWhereMigration name);
      Printed (msg_going colored self name);
      Executed (InsertMigration name);
      Printed (msg_faking colored name);
      Printed (msg_went colored self name)]).
Proof.
  intros Hd Hf Hr. step. rewrite exists_query, Hr, Hd, Hf. reflexivity.
Qed.

Lemma single_down_skip self name st :
  direction self = Some Down -> has_row name st = false ->
  _perform_single_migration colored import_module bounded_delete self name st
  = (Ok false, st,
     [Fetched (SelectIdWhereMigration name); Printed (msg_missing colored name)]).
Proof.
  intros Hd Hr. step. rewrite exists_query, Hr, Hd. reflexivity.
Qed.

Lemma single_down_fake self name st :
  direction self = Some Down -> fake self = true -> has_row name st = true ->
  _perform_single_migration colored import_module bounded_delete self name st
  = if bounded_delete then
      (Ok true, without_row st name,
       [Fetched (SelectIdWhereMigration name);
        Printed (msg_going colored self name);
        Executed (DeleteMigration name);
        Printed (msg_faking colored name);
        Printed (msg_went colored self name)])
    else
      (Raise DatabaseError, st,
       [Fetched (SelectIdWhereMigration name);
        Printed (msg_going colored self name);
        Executed (DeleteMigration name)]).
Proof.
  intros Hd Hf Hr. step. rewrite exists_query, Hr, Hd, Hf.
  destruct bounded_delete; reflexivity.
Qed.

Lemma single_real self (d : Direction) name st :
  direction self = Some d -> fake self = false -> acted d name st = true ->
  _perform_single_migration colored import_module bounded_delete self name st
  = let head :=
      [Fetched (SelectIdWhereMigration name);
       Printed (msg_going colored self name);
       Printed (msg_importing colored (module_of self name));
       Imported (module_of self name)] in
    match import_module (module_of self name) with
    | None => (Raise ImportError, st, head)
    | Some m =>
        match getattr m d with
        | None => (Raise DirectionNotFoundException, st, head)
        | Some op =>
            let called := Called (module_of self name) (direction_name d) in
            match op (schema st) with
            | (Ok _, sch) =>
                if accepted bounded_delete d then
                  (Ok true, recorded d (with_schema st sch) name,
                   (head ++ [called; Executed (mutation d name);
                             Printed (msg_went colored self name)])%list)
                else
                  (Raise DatabaseError, with_schema st sch,
                   (head ++ [called; Executed (mutation d name)])%list)
            | (Raise e, sch) => (Raise e, with_schema st sch, (head ++ [called])%list)
            end
        end
    end.
Proof.
  intros Hd Hf Hr. step. rewrite exists_query, Hd, Hf.
  fold (module_of self name).
  destruct d; simpl in Hr.
  - apply negb_true_iff in Hr. unfold has_row in Hr. rewrite Hr. simpl.
    destruct (import_module (module_of self name)) as [m|]; [|reflexivity].
    simpl. destruct (attr_up m) as [op|]; [|reflexivity].
    destruct (op (schema st)) as [[[]|e] sch]; reflexivity.
  - unfold has_row in Hr. rewrite Hr. simpl.
    destruct (import_module (module_of self name)) as [m|]; [|reflexivity].
    simpl. destruct (attr_down m) as [op|]; [|reflexivity].
    destruct (op (schema st)) as [[[]|e] sch]; [|reflexivity].
    destruct bounded_delete; reflexivity.
Qed.

(** *** The run up to its loop *)

Lemma retreive_filenames_eq self st :
  _retreive_filenames listdir self st
  = (match listdir (folder self ++ "/" ++ "migrations") with
     | None => Raise OSError
     | Some files =>
         match Py.sorted (collect files) ordinal with
         | Some names => Ok names
         | None => Raise ValueError
         end
     end, st, []).
Proof.
  unfold _retreive_filenames, bind, lift_option, ret, raise.
  destruct (listdir (folder self ++ "/" ++ "migrations")) as [files|];
    [|reflexivity].
  destruct (Py.sorted (collect files) ordinal); reflexivity.
Qed.

Lemma get_latest_migration_eq self st :
  _get_latest_migration self st
  = (Ok (match order_by_migration_desc (table st) with
         | r :: _ => Some r
         | [] => None
         end), st, [Fetched SelectLatest]).
Proof.
  unfold _get_latest_migration, bind, select_latest, ret.
  destruct (order_by_migration_desc (table st)); reflexivity.
Qed.

Lemma perform_migrations_eq self (d : Direction) st :
  _perform_migrations colored listdir import_module bounded_delete self d st
  = let self' := set_direction self d in
    match listdir (folder self ++ "/" ++ "migrations") with
    | None => (Raise OSError, st, [])
    | Some files =>
        match Py.sorted (collect files) ordinal with
        | None => (Raise ValueError, st, [])
        | Some listed =>
            let filenames := directed d listed in
            let blocked :=
              (Ok false, st,
               [Fetched SelectLatest; Printed (msg_nothing colored self')]) in
            match filenames with
            | [] => (Ok true, st, [])
            | _ :: _ =>
                match order_by_migration_desc (table st) with
                | [] =>
                    match d with
                    | Up => loop_from colored import_module bounded_delete self' filenames 0 st
                    | Down => blocked
                    end
                | r :: _ =>
                    match Py.index (migration r) filenames with
                    | None => (Raise ValueError, st, [Fetched SelectLatest])
                    | Some i =>
                        match d with
                        | Up =>
                            if i =? Py.len filenames - 1 then blocked
                            else loop_from colored import_module bounded_delete self' filenames (i + 1) st
                        | Down => loop_from colored import_module bounded_delete self' filenames i st
                        end
                    end
                end
            end
        end
    end.
Proof.
  unfold _perform_migrations. unfold bind at 1.
  rewrite retreive_filenames_eq. cbn [folder set_direction].
  destruct (listdir (folder self ++ "/" ++ "migrations")) as [files|];
    [|reflexivity].
  destruct (Py.sorted (collect files) ordinal) as [listed|]; [|reflexivity].
  cbn zeta.
  replace (if direction_is (set_direction self d) Down then rev listed else listed)
    with (directed d listed) by (now destruct d).
  destruct (directed d listed) as [|f fs] eqn:Ef; [reflexivity|].
  replace (Py.len (f :: fs) <=? 0) with false
    by (symmetry; apply Z.leb_gt; unfold Py.len; simpl; lia).
  unfold bind at 1. rewrite get_latest_migration_eq.
  destruct (order_by_migration_desc (table st)) as [|r rest].
  - destruct d; [|reflexivity].
    unfold loop_from, window_of, stop_of, notice, after_loop.
    cbn [direction_is set_direction direction direction_eqb andb app].
    unfold bind, print, emit, ret.
    destruct (count _ >? _);
      destruct (for_each _ _ st) as [[[[]|e] st'] tr];
      cbn [app]; rewrite ?app_nil_r; reflexivity.
  - unfold bind at 1. unfold lift_option.
    destruct (Py.index (migration r) (f :: fs)) as [i|]; [|reflexivity].
    unfold ret at 1. cbn [app].
    destruct d; cbn [direction_is set_direction direction direction_eqb andb].
    + rewrite andb_true_r. destruct (i =? Py.len (f :: fs) - 1); [reflexivity|].
      unfold loop_from, window_of, stop_of, notice, after_loop.
      unfold bind, print, emit, ret.
      destruct (count _ >? _);
        destruct (for_each _ _ st) as [[[[]|e] st'] tr];
        cbn [app]; rewrite ?app_nil_r; reflexivity.
    + rewrite andb_false_r.
      unfold loop_from, window_of, stop_of, notice, after_loop.
      unfold bind, print, emit, ret.
      destruct (count _ >? _);
        destruct (for_each _ _ st) as [[[[]|e] st'] tr];
        cbn [app]; rewrite ?app_nil_r; reflexivity.
Qed.

(** ** The catalog *)

(** C3, as the code has it: when every candidate name has an integer before
    its first underscore, [_retreive_filenames] returns the candidate base
    names sorted ascending by that integer, and names of equal ordinal stand
    in the order of the directory listing (string order plays no part). *)
Theorem retreive_filenames_sorted_stable self st (files : list string) :
  listdir (folder self ++ "/" ++ "migrations") = Some files ->
  (Forall (fun name => ordinal name <> None) (collect files) ->
   exists names, _retreive_filenames listdir self st = (Ok names, st, []))
  /\ (forall names st' tr,
        _retreive_filenames listdir self st = (Ok names, st', tr) ->
        Permutation (collect files) names
        /\ StronglySorted ordinal_le names
        /\ forall k,
             filter (has_ordinal k) names
             = filter (has_ordinal k) (collect files)).
Proof.
  intros Hl. rewrite retreive_filenames_eq, Hl. split.
  - intros Hf. destruct (sorted_total _ Hf) as [names ->]. now exists names.
  - intros names st' tr H.
    destruct (Py.sorted (collect files) ordinal) as [names'|] eqn:E;
      inversion H; subst.
    now apply sorted_by_ordinal.
Qed.

(** C7: a candidate file whose base name has no integer before its first
    underscore makes [_retreive_filenames] raise.  The error is Python's
    [ValueError], raised by [int] in the sort key; the class has no error
    of its own for names.  The name is not skipped, and
    [_perform_migrations] raises with the same error before it reads the
    ledger or handles any unit. *)
Theorem malformed_name_aborts self (d : Direction) st
  (files : list string) (base : string) :
  listdir (folder self ++ "/" ++ "migrations") = Some files ->
  In (base ++ ".py") files ->
  base <> "__init__" ->
  Py.int (Py.first (Py.split "_" base)) = None ->
  _retreive_filenames listdir self st = (Raise ValueError, st, [])
  /\ _perform_migrations colored listdir import_module bounded_delete self d st
     = (Raise ValueError, st, []).
Proof.
  intros Hl Hin Hn Hi.
  assert (Hs: Py.sorted (collect files) ordinal = None).
  { unfold Py.sorted.
    replace (Py.keyed ordinal (collect files)) with (@None (list (Z * string)));
      [reflexivity|].
    symmetry. apply keyed_None. exists base. split; [|exact Hi].
    apply collect_In. auto. }
  split.
  - now rewrite retreive_filenames_eq, Hl, Hs.
  - now rewrite perform_migrations_eq, Hl, Hs.
Qed.

(** ** The latest applied unit *)

(** C5: [_get_latest_migration] returns a row of the table whose name no
    name in the table exceeds in string order, and [None] exactly when the
    table has no row; it changes nothing. *)
Theorem get_latest_migration_greatest self st :
  exists latest,
    _get_latest_migration self st = (Ok latest, st, [Fetched SelectLatest])
    /\ (latest = None <-> table st = [])
    /\ (forall r, latest = Some r ->
          In r (table st)
          /\ Forall (fun q => String.leb (migration q) (migration r) = true)
               (table st)).
Proof.
  rewrite get_latest_migration_eq. eexists. split; [reflexivity|].
  destruct (order_by_migration_desc (table st)) as [|r rest] eqn:E.
  - apply (proj1 (order_by_nil _)) in E.
    split; [split; auto|intros r Hr; discriminate Hr].
  - split.
    + split; [discriminate|]. intros H.
      apply (proj2 (order_by_nil _)) in H. congruence.
    + intros r' Hr. inversion Hr; subst r'. exact (order_by_head _ _ _ E).
Qed.


(** *** The run from its loop on *)

Lemma starts_bounds (filenames : list string) (d : Direction)
  (latest : option Row) (start : Z) :
  starts filenames d latest start -> 0 <= start <= Py.len filenames.
Proof.
  destruct 1 as [|r i Hi Hn|r i Hi].
  - pose proof (len_nonneg filenames). lia.
  - apply index_Some in Hi. lia.
  - apply index_Some in Hi. lia.
Qed.

Lemma perform_migrations_loop self (d : Direction) st
  (files listed : list string) (start : Z) :
  listdir (folder self ++ "/" ++ "migrations") = Some files ->
  Py.sorted (collect files) ordinal = Some listed ->
  directed d listed <> [] ->
  starts (directed d listed) d (latest_row st) start ->
  _perform_migrations colored listdir import_module bounded_delete self d st
  = loop_from colored import_module bounded_delete (set_direction self d) (directed d listed)
      start st.
Proof.
  intros Hl Hs Hne Hst. rewrite perform_migrations_eq, Hl, Hs. cbn zeta.
  destruct (directed d listed) as [|f fs] eqn:Ef; [congruence|].
  unfold latest_row in Hst.
  destruct (order_by_migration_desc (table st)) as [|r rest].
  - inversion Hst; subst. reflexivity.
  - inversion Hst as [|r' i Hi Hn|r' i Hi]; subst.
    + rewrite Hi. now apply Z.eqb_neq in Hn as ->.
    + now rewrite Hi.
Qed.

Lemma attempted_app (a b : list event) :
  attempted (a ++ b) = (attempted a ++ attempted b)%list.
Proof.
  induction a as [|e a IH]; [reflexivity|].
  destruct e as [[]| | | |]; simpl; now rewrite IH.
Qed.

Lemma called_app (a b : list event) :
  called (a ++ b) = (called a ++ called b)%list.
Proof.
  induction a as [|e a IH]; [reflexivity|].
  destruct e; simpl; now rewrite IH.
Qed.

(** Each call of [_perform_single_migration] asks once whether its unit is
    recorded, whatever it does next. *)
Lemma single_attempted self name st :
  attempted (snd (_perform_single_migration colored import_module bounded_delete self name st))
  = [name].
Proof.
  destruct (direction self) as [d|] eqn:Hd.
  - destruct (acted d name st) eqn:Ha.
    + destruct (fake self) eqn:Hf.
      * destruct d; simpl in Ha.
        -- apply negb_true_iff in Ha. now rewrite single_up_fake.
        -- rewrite single_down_fake by assumption.
           now destruct bounded_delete.
      * rewrite (single_real self d name st Hd Hf Ha). cbn zeta.
        destruct (import_module (module_of self name)) as [m|]; [|reflexivity].
        destruct (getattr m d) as [op|]; [|reflexivity].
        destruct (op (schema st)) as [[[]|e] sch]; [|reflexivity].
        now destruct (accepted bounded_delete d).
    + destruct d; simpl in Ha.
      * apply negb_false_iff in Ha. now rewrite single_up_skip.
      * now rewrite single_down_skip.
  - step. rewrite Hd, !andb_false_r.
    destruct (fake self); [now destruct bounded_delete|].
    destruct (import_module _); reflexivity.
Qed.

Lemma for_each_cons {A B : Type} (body : A -> M Schema B) (x : A) (l : list A) st :
  for_each (x :: l) body st
  = match body x st with
    | (Ok _, st1, tr1) =>
        match for_each l body st1 with
        | (r, st2, tr2) => (r, st2, (tr1 ++ tr2)%list)
        end
    | (Raise e, st1, tr1) => (Raise e, st1, tr1)
    end.
Proof. reflexivity. Qed.

Lemma for_each_attempted self (w : list string) st
  (o : result unit) st' (tr : list event) :
  for_each w (_perform_single_migration colored import_module bounded_delete self) st
  = (o, st', tr) ->
  (exists k, attempted tr = firstn k w)
  /\ (o = Ok tt -> attempted tr = w).
Proof.
  revert st o st' tr. induction w as [|name w IH]; intros st o st' tr H.
  - inversion H; subst. split; [now exists 0%nat|reflexivity].
  - rewrite for_each_cons in H.
    pose proof (single_attempted self name st) as Hs.
    destruct (_perform_single_migration colored import_module bounded_delete self name st)
      as [[[b|e] st1] tr1]; cbn [snd] in Hs.
    + destruct (for_each w _ st1) as [[o2 st2] tr2] eqn:E.
      inversion H; subst. destruct (IH _ _ _ _ E) as [[k Hk] Hall].
      rewrite attempted_app, Hs. split.
      * exists (S k). simpl. now rewrite Hk.
      * intros Ho. simpl. now rewrite Hall.
    + inversion H; subst. rewrite Hs. split; [|discriminate].
      exists 1%nat. reflexivity.
Qed.

Lemma notice_attempted self (w : list string) :
  attempted (Fetched SelectLatest :: notice colored self w) = [].
Proof. unfold notice. now destruct (count self >? Py.len w). Qed.

Lemma len_skipn {A : Type} (l : list A) (start : Z) :
  0 <= start <= Py.len l ->
  Py.len (skipn (Z.to_nat start) l) = Py.len l - start.
Proof. intros H. unfold Py.len in *. rewrite length_skipn. lia. Qed.

Lemma after_loop_attempted self (w : list string)
  (r : result unit * Store Schema * list event) :
  attempted (snd (after_loop (Fetched SelectLatest :: notice colored self w) r))
  = attempted (snd r).
Proof.
  destruct r as [[[[]|e] st'] tr]; unfold after_loop; cbn [snd];
    now rewrite attempted_app, notice_attempted.
Qed.

(** ** The window *)

(** C1, for the runs that get to the window (a catalog that is not empty, a
    latest row found in it, neither boundary exit): the run is the loop over
    the slice [filenames[start:stop]] of the listed names, reversed for
    [down], where [stop] is the length when the count is 0 and
    [start + count] otherwise; the units handled are those of the slice in
    order, all of them when the run returns; a count above what is left
    takes all that is left, prints the notice and raises nothing of its
    own. *)
Theorem window_is_slice self (d : Direction) st
  (files listed : list string) (start : Z) :
  listdir (folder self ++ "/" ++ "migrations") = Some files ->
  Py.sorted (collect files) ordinal = Some listed ->
  directed d listed <> [] ->
  starts (directed d listed) d (latest_row st) start ->
  let self' := set_direction self d in
  let filenames := directed d listed in
  let stop := if count self =? 0 then Py.len filenames else start + count self in
  let w := Py.slice filenames start stop in
  let run := _perform_migrations colored listdir import_module bounded_delete self d st in
  run
  = after_loop
      (Fetched SelectLatest
       :: (if count self >? Py.len w
           then [Printed (msg_count colored self' (Py.len w))] else []))
      (for_each w (_perform_single_migration colored import_module bounded_delete self') st)
  /\ (exists k, attempted (snd run) = firstn k w)
  /\ (forall b, fst (fst run) = Ok b -> b = true /\ attempted (snd run) = w)
  /\ (count self = 0 -> w = skipn (Z.to_nat start) filenames)
  /\ (0 < count self ->
      w = firstn (Z.to_nat (count self)) (skipn (Z.to_nat start) filenames))
  /\ (Py.len filenames - start < count self ->
      w = skipn (Z.to_nat start) filenames
      /\ In (Printed (msg_count colored self' (Py.len filenames - start)))
           (snd run)).
Proof.
  intros Hl Hs Hne Hst self' filenames stop w run.
  pose proof (starts_bounds _ _ _ _ Hst) as Hb. fold filenames in Hb.
  assert (Hrun: run = loop_from colored import_module bounded_delete self' filenames start st)
    by (apply (perform_migrations_loop self d st files listed start); assumption).
  assert (Hw: window_of self' filenames start = w) by reflexivity.
  assert (Hall: Py.len filenames - start < count self ->
                w = skipn (Z.to_nat start) filenames).
  { intros Hc. subst w stop.
    replace (count self =? 0) with false by (symmetry; apply Z.eqb_neq; lia).
    rewrite slice_count by lia. apply firstn_all2.
    pose proof (len_skipn filenames start Hb) as Hk. unfold Py.len in *. lia. }
  rewrite Hrun. unfold loop_from. rewrite Hw.
  split; [reflexivity|].
  rewrite after_loop_attempted.
  destruct (for_each w (_perform_single_migration colored import_module bounded_delete self') st)
    as [[o st'] tr] eqn:E.
  destruct (for_each_attempted _ _ _ _ _ _ E) as [Hk Hok].
  cbn [snd]. split; [exact Hk|]. split; [|split; [|split]].
  - intros b Hbo. destruct o as [[]|e]; cbn in Hbo; [|discriminate].
    inversion Hbo; subst. split; [reflexivity|]. now apply Hok.
  - intros Hc. subst w stop. rewrite Hc. cbn [Z.eqb]. apply slice_all. lia.
  - intros Hc. subst w stop.
    replace (count self =? 0) with false by (symmetry; apply Z.eqb_neq; lia).
    apply slice_count; lia.
  - intros Hc. split; [now apply Hall|].
    unfold notice. cbn [count set_direction self'].
    assert (Hlen: Py.len w = Py.len filenames - start)
      by (rewrite (Hall Hc); now apply len_skipn).
    replace (count self >? Py.len w) with true
      by (symmetry; apply Z.gtb_lt; lia).
    rewrite Hlen. destruct o as [[]|e]; cbn; auto.
Qed.

Lemma sorted_NoDup (files listed : list string) :
  NoDup files -> Py.sorted (collect files) ordinal = Some listed -> NoDup listed.
Proof.
  intros Hn Hs. apply sorted_by_ordinal in Hs. destruct Hs as [Hp _].
  eapply Permutation_NoDup; [exact Hp|]. now apply collect_NoDup.
Qed.

Lemma latest_row_None st : latest_row st = None <-> table st = [].
Proof.
  unfold latest_row.
  destruct (order_by_migration_desc (table st)) as [|r rest] eqn:E.
  - apply (proj1 (order_by_nil _)) in E. tauto.
  - split; [discriminate|]. intros H.
    apply (proj2 (order_by_nil _)) in H. congruence.
Qed.

(** ** The boundary exits *)

(** C4, over a catalog that lists at least one unit: a [down] run with no
    row in the ledger prints "Nothing to go down." and returns [False]; an
    [up] run whose latest row names the last unit of the sequence prints
    "Nothing to go up." and returns [False]; neither raises, changes the
    store, or does more than read the latest row. *)
Theorem boundary_runs_change_nothing self st (files listed : list string) :
  listdir (folder self ++ "/" ++ "migrations") = Some files ->
  NoDup files ->
  Py.sorted (collect files) ordinal = Some listed ->
  listed <> [] ->
  (table st = [] ->
   _perform_migrations colored listdir import_module bounded_delete self Down st
   = (Ok false, st,
      [Fetched SelectLatest;
       Printed ("Nothing to go " ++ colored "down" "magenta" ++ ".")]))
  /\ (forall r front,
        latest_row st = Some r ->
        listed = (front ++ [migration r])%list ->
        _perform_migrations colored listdir import_module bounded_delete self Up st
        = (Ok false, st,
           [Fetched SelectLatest;
            Printed ("Nothing to go " ++ colored "up" "magenta" ++ ".")])).
Proof.
  intros Hl Hnd Hs Hne. split.
  - intros Ht. rewrite perform_migrations_eq, Hl, Hs. cbn zeta.
    destruct (directed Down listed) as [|f fs] eqn:Ef.
    + simpl in Ef. apply (f_equal (@rev string)) in Ef.
      rewrite rev_involutive in Ef. now elim Hne.
    + now rewrite Ht.
  - intros r front Hr Hf. rewrite perform_migrations_eq, Hl, Hs. cbn zeta.
    cbn [directed]. destruct listed as [|f fs] eqn:El; [now elim Hne|].
    unfold latest_row in Hr.
    destruct (order_by_migration_desc (table st)) as [|r' rest];
      [discriminate|]. inversion Hr; subst r'.
    pose proof (sorted_NoDup _ _ Hnd Hs) as Hn. rewrite Hf in Hn |- *.
    rewrite (index_NoDup _ _ _ Hn), len_app.
    replace (Py.len front =? Py.len front + Py.len [migration r] - 1) with true
      by (symmetry; apply Z.eqb_eq; unfold Py.len; simpl; lia).
    reflexivity.
Qed.

(** C9, over a catalog that lists at least one unit: when the latest row of
    the ledger names a unit that is not in the sequence, the run raises the
    [ValueError] of [list.index] right after reading that row, in either
    direction, and changes nothing. *)
Theorem unlisted_latest_raises self (d : Direction) st
  (files listed : list string) (r : Row) :
  listdir (folder self ++ "/" ++ "migrations") = Some files ->
  Py.sorted (collect files) ordinal = Some listed ->
  listed <> [] ->
  latest_row st = Some r ->
  ~ In (migration r) listed ->
  _perform_migrations colored listdir import_module bounded_delete self d st
  = (Raise ValueError, st, [Fetched SelectLatest]).
Proof.
  intros Hl Hs Hne Hr Hin. rewrite perform_migrations_eq, Hl, Hs. cbn zeta.
  assert (Hd: ~ In (migration r) (directed d listed)).
  { destruct d; simpl; [exact Hin|]. now rewrite <- in_rev. }
  destruct (directed d listed) as [|f fs] eqn:Ef.
  - exfalso. destruct d; simpl in Ef; [congruence|].
    apply (f_equal (@rev string)) in Ef. rewrite rev_involutive in Ef.
    now elim Hne.
  - unfold latest_row in Hr.
    destruct (order_by_migration_desc (table st)) as [|r' rest];
      [discriminate|]. inversion Hr; subst r'.
    apply index_None in Hd. now rewrite Hd.
Qed.

(** *** Loops *)

Lemma for_each_app {A B : Type} (body : A -> M Schema B) (l1 l2 : list A) st :
  for_each (l1 ++ l2) body st
  = match for_each l1 body st with
    | (Ok _, st1, tr1) =>
        match for_each l2 body st1 with
        | (r, st2, tr2) => (r, st2, (tr1 ++ tr2)%list)
        end
    | (Raise e, st1, tr1) => (Raise e, st1, tr1)
    end.
Proof.
  revert st. induction l1 as [|x l1 IH]; intros st.
  - cbn [app for_each]. unfold ret.
    destruct (for_each l2 body st) as [[r st2] tr2]. reflexivity.
  - cbn [app]. rewrite !for_each_cons.
    destruct (body x st) as [[[b|e] st1] tr1]; [|reflexivity].
    rewrite IH.
    destruct (for_each l1 body st1) as [[[[]|e] st2] tr2]; [|reflexivity].
    destruct (for_each l2 body st2) as [[r st3] tr3].
    now rewrite app_assoc.
Qed.

Lemma has_row_In name st :
  has_row name st = true <-> exists r, In r (table st) /\ migration r = name.
Proof.
  unfold has_row. rewrite existsb_exists. unfold matching.
  split; intros [r [Hr Hm]]; exists r; split; auto.
  - now apply String.eqb_eq.
  - now apply String.eqb_eq.
Qed.

Lemma has_row_with_row name other st :
  has_row name (with_row st other) = has_row name st || String.eqb other name.
Proof.
  unfold has_row, with_row. cbn [table]. rewrite existsb_app. simpl.
  now rewrite orb_false_r.
Qed.

Lemma has_row_with_schema name st (sch : Schema) :
  has_row name (with_schema st sch) = has_row name st.
Proof. reflexivity. Qed.

(** Going up, a call that returns leaves a row for its unit and keeps every
    row that was there; the names recorded are the old ones and this one. *)
Lemma single_up_records self name st (b : bool) st1 (tr : list event) :
  direction self = Some Up ->
  _perform_single_migration colored import_module bounded_delete self name st = (Ok b, st1, tr) ->
  forall n, has_row n st1 = has_row n st || String.eqb name n.
Proof.
  intros Hd H n.
  destruct (has_row name st) eqn:Hr.
  - rewrite (single_up_skip self name st Hd Hr) in H. inversion H; subst.
    destruct (String.eqb_spec name n) as [->|]; [|now rewrite orb_false_r].
    now rewrite Hr.
  - destruct (fake self) eqn:Hf.
    + rewrite (single_up_fake self name st Hd Hf Hr) in H. inversion H; subst.
      apply has_row_with_row.
    + assert (Ha: acted Up name st = true) by (simpl; now rewrite Hr).
      rewrite (single_real self Up name st Hd Hf Ha) in H. cbn zeta in H.
      destruct (import_module (module_of self name)) as [m|]; [|discriminate].
      destruct (getattr m Up) as [op|]; [|discriminate].
      destruct (op (schema st)) as [[[]|e] sch]; [|discriminate].
      inversion H; subst. cbn [recorded].
      now rewrite has_row_with_row, has_row_with_schema.
Qed.

Lemma for_each_up_records self (w : list string) st st1 (tr : list event) :
  direction self = Some Up ->
  for_each w (_perform_single_migration colored import_module bounded_delete self) st
  = (Ok tt, st1, tr) ->
  forall n, has_row n st1 = has_row n st || existsb (fun x => String.eqb x n) w.
Proof.
  intros Hd. revert st tr. induction w as [|name w IH]; intros st tr H n.
  - inversion H; subst. simpl. now rewrite orb_false_r.
  - rewrite for_each_cons in H.
    destruct (_perform_single_migration colored import_module bounded_delete self name st)
      as [[[b|e] st2] tr2] eqn:E; [|discriminate].
    destruct (for_each w _ st2) as [[o st3] tr3] eqn:E2.
    inversion H; subst.
    rewrite (IH _ _ E2 n), (single_up_records _ _ _ _ _ _ Hd E n).
    cbn [existsb]. now rewrite orb_assoc.
Qed.

(** Going up over units that all have their row: every one is skipped. *)
Lemma for_each_up_all_recorded self (w : list string) st :
  direction self = Some Up ->
  (forall n, In n w -> has_row n st = true) ->
  exists tr,
    for_each w (_perform_single_migration colored import_module bounded_delete self) st
    = (Ok tt, st, tr)
    /\ quiet tr.
Proof.
  intros Hd. induction w as [|name w IH]; intros Hw.
  - exists []. split; [reflexivity|constructor].
  - destruct IH as [tr [Htr Hq]]; [intros n Hn; apply Hw; now right|].
    rewrite for_each_cons, (single_up_skip self name st Hd) by (apply Hw; now left).
    rewrite Htr. eexists. split; [reflexivity|].
    repeat (constructor; [split; reflexivity|]). exact Hq.
Qed.

Lemma existsb_eqb_In (n : string) (w : list string) :
  existsb (fun x => String.eqb x n) w = true <-> In n w.
Proof.
  rewrite existsb_exists. split.
  - intros [x [Hx He]]. apply String.eqb_eq in He. now subst.
  - intros H. exists n. split; [exact H|apply String.eqb_refl].
Qed.

Lemma In_skipn {A : Type} (x : A) (k : nat) (l : list A) :
  In x (skipn k l) -> In x l.
Proof.
  intros H. rewrite <- (firstn_skipn k l). apply in_or_app. now right.
Qed.

Lemma In_skipn_le {A : Type} (x : A) (k1 k2 : nat) (l : list A) :
  (k1 <= k2)%nat -> In x (skipn k2 l) -> In x (skipn k1 l).
Proof.
  intros Hk H. replace k2 with ((k2 - k1) + k1)%nat in H by lia.
  rewrite <- skipn_skipn in H. now apply In_skipn in H.
Qed.

(** In a list without repetition, what stands after position [k] has an
    index of at least [k]. *)
Lemma index_skipn (x : string) (k : nat) (l : list string) :
  NoDup l -> In x (skipn k l) ->
  exists j, Py.index x l = Some j /\ Z.of_nat k <= j.
Proof.
  intros Hn Hin. destruct (in_split _ _ Hin) as [a [b Hab]].
  assert (Hl: l = ((firstn k l ++ a) ++ x :: b)%list).
  { rewrite <- app_assoc, <- Hab. symmetry. apply firstn_skipn. }
  assert (Hk: (k < List.length l)%nat).
  { destruct (Nat.lt_ge_cases k (List.length l)) as [|Hge]; [assumption|].
    rewrite (skipn_all2 _ Hge) in Hin. destruct Hin. }
  exists (Py.len (firstn k l ++ a)). split.
  - rewrite Hl at 1. apply index_NoDup. now rewrite <- Hl.
  - unfold Py.len. rewrite length_app, length_firstn. lia.
Qed.

Lemma window_all self (filenames : list string) (start : Z) :
  count self = 0 -> 0 <= start ->
  window_of self filenames start = skipn (Z.to_nat start) filenames.
Proof.
  intros Hc Hs. unfold window_of, stop_of. rewrite Hc. apply slice_all, Hs.
Qed.

(** An [up] run with count 0 over a ledger that already holds every unit
    after the latest one. *)
Lemma up_run_all_recorded self st (files listed : list string) (r : Row) (j : Z) :
  count self = 0 ->
  listdir (folder self ++ "/" ++ "migrations") = Some files ->
  Py.sorted (collect files) ordinal = Some listed ->
  latest_row st = Some r ->
  Py.index (migration r) listed = Some j ->
  (forall n, In n (skipn (Z.to_nat (j + 1)) listed) -> has_row n st = true) ->
  exists (b : bool) (tr : list event),
    _perform_migrations colored listdir import_module bounded_delete self Up st = (Ok b, st, tr)
    /\ quiet tr
    /\ forall n, In n (attempted tr) -> has_row n st = true.
Proof.
  intros Hc Hl Hs Hr Hj Hrec.
  rewrite perform_migrations_eq, Hl, Hs. cbn zeta. cbn [directed].
  destruct listed as [|f fs] eqn:El; [discriminate Hj|]. rewrite <- El in *.
  unfold latest_row in Hr.
  destruct (order_by_migration_desc (table st)) as [|r' rest]; [discriminate|].
  inversion Hr; subst r'. rewrite Hj.
  destruct (j =? Py.len listed - 1).
  - exists false. eexists. split; [reflexivity|]. split.
    + repeat (constructor; [split; reflexivity|]). constructor.
    + intros n [].
  - unfold loop_from.
    pose proof (index_Some _ _ _ Hj) as [Hb _].
    rewrite window_all by (cbn; lia).
    destruct (for_each_up_all_recorded (set_direction self Up)
                (skipn (Z.to_nat (j + 1)) listed) st eq_refl Hrec)
      as [tr [Htr Hq]].
    rewrite Htr. unfold notice. cbn [count set_direction]. rewrite Hc.
    pose proof (len_nonneg (skipn (Z.to_nat (j + 1)) listed)) as Hlen.
    replace (0 >? _) with false
      by (symmetry; rewrite Z.gtb_ltb; apply Z.ltb_ge; lia).
    exists true. eexists. split; [reflexivity|]. split.
    + cbn [app]. constructor; [split; reflexivity|exact Hq].
    + destruct (for_each_attempted _ _ _ _ _ _ Htr) as [_ Ha].
      cbn [attempted app]. rewrite (Ha eq_refl). exact Hrec.
Qed.

Lemma latest_row_head st (r : Row) :
  latest_row st = Some r ->
  In r (table st) /\ Forall (name_ge r) (table st).
Proof.
  unfold latest_row.
  destruct (order_by_migration_desc (table st)) as [|r' rest] eqn:E;
    [discriminate|].
  intros H. inversion H; subst. exact (order_by_head _ _ _ E).
Qed.

Lemma has_row_latest st (r : Row) :
  latest_row st = Some r -> has_row (migration r) st = true.
Proof.
  intros H. apply has_row_In. exists r. split; [|reflexivity].
  now apply latest_row_head.
Qed.

(** ** Running up twice *)

(** C2, for runs with count 0 (all that remain): when an [up] run returns,
    the [up] run that follows it over the same files returns too, leaves the
    store as the first run left it, and emits no mutation, import or call:
    every unit it handles has its row and is skipped. *)
Theorem up_twice_changes_nothing self st (files : list string)
  (b : bool) st1 (tr1 : list event) :
  count self = 0 ->
  listdir (folder self ++ "/" ++ "migrations") = Some files ->
  NoDup files ->
  _perform_migrations colored listdir import_module bounded_delete self Up st = (Ok b, st1, tr1) ->
  exists (b2 : bool) (tr2 : list event),
    _perform_migrations colored listdir import_module bounded_delete self Up st1
    = (Ok b2, st1, tr2)
    /\ quiet tr2
    /\ forall n, In n (attempted tr2) -> has_row n st1 = true.
Proof.
  intros Hc Hl Hnd H1.
  rewrite perform_migrations_eq, Hl in H1.
  destruct (Py.sorted (collect files) ordinal) as [listed|] eqn:Hs;
    [|discriminate].
  pose proof (sorted_NoDup _ _ Hnd Hs) as Hn.
  cbn zeta in H1. cbn [directed] in H1.
  destruct listed as [|f fs] eqn:El.
  { inversion H1; subst. exists true, [].
    rewrite perform_migrations_eq, Hl, Hs. cbn.
    split; [reflexivity|]. split; [constructor|intros n []]. }
  lazy iota in H1. rewrite <- El in *.
  assert (Hc': count (set_direction self Up) = 0) by exact Hc.
  destruct (order_by_migration_desc (table st)) as [|r rest] eqn:Eo.
  - (* no latest row: the first run walked the whole list *)
    unfold loop_from in H1. rewrite window_all in H1 by (auto; lia).
    cbn [Z.to_nat skipn] in H1.
    destruct (for_each listed _ st) as [[[[]|e] st'] tr] eqn:E;
      unfold after_loop in H1; inversion H1; subst st' b tr1; clear H1.
    pose proof (for_each_up_records (set_direction self Up) _ _ _ _ eq_refl E)
      as Hrec.
    apply (proj1 (order_by_nil _)) in Eo.
    assert (Hold: forall n, has_row n st = false)
      by (intros n; unfold has_row; now rewrite Eo).
    destruct (latest_row st1) as [r2|] eqn:Hr2.
    + pose proof (has_row_latest _ _ Hr2) as H2.
      rewrite Hrec, Hold in H2. apply existsb_eqb_In in H2.
      destruct (Py.index (migration r2) listed) as [j|] eqn:Hj;
        [|apply index_None in Hj; contradiction].
      apply (up_run_all_recorded self st1 files listed r2 j); auto.
      intros n Hin. rewrite Hrec. apply orb_true_iff. right.
      apply existsb_eqb_In. now apply In_skipn in Hin.
    + apply latest_row_None in Hr2.
      assert (Hf: has_row f st1 = true).
      { rewrite Hrec. apply orb_true_iff. right. apply existsb_eqb_In.
        rewrite El. now left. }
      unfold has_row in Hf. rewrite Hr2 in Hf. discriminate.
  - (* a latest row *)
    assert (Hr: latest_row st = Some r) by (unfold latest_row; now rewrite Eo).
    destruct (Py.index (migration r) listed) as [i|] eqn:Hi; [|discriminate].
    destruct (i =? Py.len listed - 1) eqn:Hlast.
    + inversion H1; subst. exists false. eexists.
      rewrite perform_migrations_eq, Hl, Hs. cbn zeta. cbn [directed].
      rewrite Eo, Hi, Hlast.
      split; [reflexivity|]. split.
      * repeat (constructor; [split; reflexivity|]). constructor.
      * intros n [].
    + pose proof (index_Some _ _ _ Hi) as [Hb _].
      unfold loop_from in H1. rewrite window_all in H1 by (auto; lia).
      destruct (for_each (skipn (Z.to_nat (i + 1)) listed) _ st)
        as [[[[]|e] st'] tr] eqn:E;
        unfold after_loop in H1; inversion H1; subst st' b tr1; clear H1.
      pose proof (for_each_up_records (set_direction self Up) _ _ _ _ eq_refl E)
      as Hrec.
      pose proof (has_row_latest _ _ Hr) as Hr1.
      assert (Hr1': has_row (migration r) st1 = true)
        by (now rewrite Hrec, Hr1).
      destruct (latest_row st1) as [r2|] eqn:Hr2.
      * pose proof (has_row_latest _ _ Hr2) as H2.
        rewrite Hrec in H2. apply orb_true_iff in H2. destruct H2 as [H2|H2].
        -- (* the latest name was already the greatest *)
           assert (Heq: migration r2 = migration r).
           { apply has_row_In in H2. destruct H2 as [q [Hq Hm]].
             apply has_row_In in Hr1'. destruct Hr1' as [q1 [Hq1 Hm1]].
             destruct (latest_row_head _ _ Hr) as [_ Hge].
             destruct (latest_row_head _ _ Hr2) as [_ Hge2].
             rewrite Forall_forall in Hge, Hge2.
             apply String.leb_antisym.
             - rewrite <- Hm. exact (Hge q Hq).
             - rewrite <- Hm1. exact (Hge2 q1 Hq1). }
           apply (up_run_all_recorded self st1 files listed r2 i); auto.
           ++ now rewrite Heq.
           ++ intros n Hin. rewrite Hrec. apply orb_true_iff. right.
              now apply existsb_eqb_In.
        -- (* the latest name is one the first run recorded *)
           apply existsb_eqb_In in H2.
           destruct (index_skipn _ _ _ Hn H2) as [j [Hj Hle]].
           apply (up_run_all_recorded self st1 files listed r2 j); auto.
           intros n Hin. rewrite Hrec. apply orb_true_iff. right.
           apply existsb_eqb_In.
           apply (In_skipn_le n (Z.to_nat (i + 1)) (Z.to_nat (j + 1))); [lia|].
           exact Hin.
      * apply latest_row_None in Hr2. unfold has_row in Hr1'.
        rewrite Hr2 in Hr1'. discriminate.
Qed.

(** ** A unit without the operation asked for *)

(** C6, for a run that is not faked and a unit that is not skipped: when
    the units before it in the window have been handled and the unit, once
    imported, has no attribute for the direction, the run raises
    [DirectionNotFoundException] there.  The store is the one the units
    before left (their mutations stay, the unit's own row is untouched), and
    the run has looked at no unit after it. *)
Theorem missing_direction_aborts self (d : Direction) st
  (files listed : list string) (start : Z)
  (before after : list string) (name : string)
  st1 (tr1 : list event) (m : PyModule Schema) :
  fake self = false ->
  listdir (folder self ++ "/" ++ "migrations") = Some files ->
  Py.sorted (collect files) ordinal = Some listed ->
  directed d listed <> [] ->
  starts (directed d listed) d (latest_row st) start ->
  let self' := set_direction self d in
  let filenames := directed d listed in
  let stop := if count self =? 0 then Py.len filenames else start + count self in
  let w := Py.slice filenames start stop in
  w = (before ++ name :: after)%list ->
  for_each before (_perform_single_migration colored import_module bounded_delete self') st
  = (Ok tt, st1, tr1) ->
  acted d name st1 = true ->
  import_module (module_of self name) = Some m ->
  getattr m d = None ->
  let run := _perform_migrations colored listdir import_module bounded_delete self d st in
  run
  = (Raise DirectionNotFoundException, st1,
     (Fetched SelectLatest :: notice colored self' w ++ tr1
      ++ [Fetched (SelectIdWhereMigration name);
          Printed (msg_going colored self' name);
          Printed (msg_importing colored (module_of self name));
          Imported (module_of self name)])%list)
  /\ attempted (snd run) = (before ++ [name])%list.
Proof.
  intros Hf Hl Hs Hne Hst self' filenames stop w Hw Hbefore Ha Hm Hg run.
  assert (Hrun: run = loop_from colored import_module bounded_delete self' filenames start st)
    by (apply (perform_migrations_loop self d st files listed start); assumption).
  assert (Hloop:
    for_each w (_perform_single_migration colored import_module bounded_delete self') st
    = (Raise DirectionNotFoundException, st1,
       (tr1 ++ [Fetched (SelectIdWhereMigration name);
                Printed (msg_going colored self' name);
                Printed (msg_importing colored (module_of self name));
                Imported (module_of self name)])%list)).
  { rewrite Hw, for_each_app, Hbefore, for_each_cons.
    rewrite (single_real self' d name st1 eq_refl Hf Ha). cbn zeta.
    change (module_of self' name) with (module_of self name).
    now rewrite Hm, Hg. }
  assert (Hrun': run
    = (Raise DirectionNotFoundException, st1,
       (Fetched SelectLatest :: notice colored self' w ++ tr1
        ++ [Fetched (SelectIdWhereMigration name);
            Printed (msg_going colored self' name);
            Printed (msg_importing colored (module_of self name));
            Imported (module_of self name)])%list)).
  { rewrite Hrun. unfold loop_from.
    change (window_of self' filenames start) with w. now rewrite Hloop. }
  split; [exact Hrun'|].
  rewrite Hrun'. cbn [snd].
  change (Fetched SelectLatest :: notice colored self' w ++ ?x)%list
    with ((Fetched SelectLatest :: notice colored self' w) ++ x)%list.
  rewrite attempted_app, notice_attempted, attempted_app. cbn [app].
  destruct (for_each_attempted _ _ _ _ _ _ Hbefore) as [_ Hb].
  now rewrite (Hb eq_refl).
Qed.

(** ** Faked runs *)

Lemma for_each_up_fake self (w : list string) st :
  fake self = true -> direction self = Some Up ->
  exists st' (tr : list event),
    for_each w (_perform_single_migration colored import_module bounded_delete self) st
    = (Ok tt, st', tr)
    /\ Forall (fun e => is_unit_code e = false) tr.
Proof.
  intros Hf Hd. revert st. induction w as [|name w IH]; intros st.
  - exists st, []. split; [reflexivity|constructor].
  - rewrite for_each_cons. destruct (has_row name st) eqn:Hr.
    + rewrite (single_up_skip self name st Hd Hr).
      destruct (IH st) as [st' [tr [Htr Hq]]]. rewrite Htr.
      eexists. eexists. split; [reflexivity|].
      repeat (constructor; [reflexivity|]). exact Hq.
    + rewrite (single_up_fake self name st Hd Hf Hr).
      destruct (IH (with_row st name)) as [st' [tr [Htr Hq]]]. rewrite Htr.
      eexists. eexists. split; [reflexivity|].
      repeat (constructor; [reflexivity|]). exact Hq.
Qed.

(** C8, for a unit that has no row yet: going up with the fake flag set,
    [_perform_single_migration] imports and calls nothing, inserts one row
    for the unit and returns [True]; from then on a real [up] call on the
    unit finds the row and skips it, importing and calling nothing.  No
    faked [up] loop imports or calls anything. *)
Theorem fake_up_records_without_running self (name : string) st :
  fake self = true ->
  direction self = Some Up ->
  has_row name st = false ->
  _perform_single_migration colored import_module bounded_delete self name st
  = (Ok true,
     {| table := table st ++ [mkRow (serial st) name (clock st)];
        serial := serial st + 1;
        clock := clock st + 1;
        schema := schema st |},
     [Fetched (SelectIdWhereMigration name);
      Printed (msg_going colored self name);
      Executed (InsertMigration name);
      Printed (msg_faking colored name);
      Printed (msg_went colored self name)])
  /\ (forall self2 st2,
        direction self2 = Some Up ->
        (st2 = with_row st name \/ has_row name st2 = true) ->
        _perform_single_migration colored import_module bounded_delete self2 name st2
        = (Ok false, st2,
           [Fetched (SelectIdWhereMigration name);
            Printed (msg_exists colored name)]))
  /\ (forall (w : list string) st0,
        exists st' (tr : list event),
          for_each w (_perform_single_migration colored import_module bounded_delete self) st0
          = (Ok tt, st', tr)
          /\ Forall (fun e => is_unit_code e = false) tr).
Proof.
  intros Hf Hd Hr. split; [|split].
  - exact (single_up_fake self name st Hd Hf Hr).
  - intros self2 st2 Hd2 H2. apply single_up_skip; [exact Hd2|].
    destruct H2 as [->|H2]; [|exact H2].
    rewrite has_row_with_row, String.eqb_refl. apply orb_true_r.
  - intros w st0. now apply for_each_up_fake.
Qed.

(** * Further properties of the engine *)

(** ** What one call does to the ledger *)

(** Whatever a call of [_perform_single_migration] returns or raises, it
    leaves the ledger as it was, or appends one row for its unit (going up,
    the unit having none), or deletes one row of its unit (going down, the
    unit having one). *)
Lemma single_table self (d : Direction) name st
  (o : result bool) st' (tr : list event) :
  direction self = Some d ->
  _perform_single_migration colored import_module bounded_delete self name st = (o, st', tr) ->
  (table st' = table st /\ serial st' = serial st /\ clock st' = clock st)
  \/ (d = Up /\ has_row name st = false /\ o = Ok true
      /\ table st' = (table st ++ [mkRow (serial st) name (clock st)])%list
      /\ serial st' = serial st + 1 /\ clock st' = clock st + 1)
  \/ (d = Down /\ has_row name st = true /\ o = Ok true
      /\ table st' = delete_one name (table st)
      /\ serial st' = serial st /\ clock st' = clock st).
Proof.
  intros Hd H. destruct (acted d name st) eqn:Ha.
  - destruct (fake self) eqn:Hf.
    + destruct d; simpl in Ha.
      * apply negb_true_iff in Ha.
        rewrite (single_up_fake self name st Hd Hf Ha) in H.
        inversion H; subst. right. left. repeat split; auto.
      * rewrite (single_down_fake self name st Hd Hf Ha) in H.
        destruct bounded_delete; inversion H; subst; [|left; auto].
        right. right. repeat split; auto.
    + rewrite (single_real self d name st Hd Hf Ha) in H. cbn zeta in H.
      destruct (import_module (module_of self name)) as [m|];
        [|inversion H; subst; left; auto].
      destruct (getattr m d) as [op|]; [|inversion H; subst; left; auto].
      destruct (op (schema st)) as [[[]|e] sch];
        [|inversion H; subst; left; auto].
      destruct (accepted bounded_delete d);
        inversion H; subst; [|left; auto].
      destruct d; simpl in Ha.
      * apply negb_true_iff in Ha. right. left. repeat split; auto.
      * right. right. repeat split; auto.
  - destruct d; simpl in Ha.
    + apply negb_false_iff in Ha.
      rewrite (single_up_skip self name st Hd Ha) in H.
      inversion H; subst. left. auto.
    + rewrite (single_down_skip self name st Hd Ha) in H.
      inversion H; subst. left. auto.
Qed.

(** A relation between stores that every call respects holds across a
    loop. *)
Lemma for_each_related (R : Store Schema -> Store Schema -> Prop)
  self (w : list string) :
  (forall st, R st st) ->
  (forall st1 st2 st3, R st1 st2 -> R st2 st3 -> R st1 st3) ->
  (forall name st o st' tr,
      In name w ->
      _perform_single_migration colored import_module bounded_delete self name st
      = (o, st', tr) -> R st st') ->
  forall st o st' tr,
    for_each w (_perform_single_migration colored import_module bounded_delete self) st
    = (o, st', tr) -> R st st'.
Proof.
  intros Hrefl Htrans. induction w as [|name w IH]; intros Hstep st o st' tr H.
  - inversion H; subst. apply Hrefl.
  - rewrite for_each_cons in H.
    destruct (_perform_single_migration colored import_module bounded_delete self name st)
      as [[[b|e] st1] tr1] eqn:E.
    + destruct (for_each w _ st1) as [[o2 st2] tr2] eqn:E2.
      inversion H; subst. eapply Htrans.
      * eapply Hstep; [now left|exact E].
      * eapply IH; [|exact E2]. intros n s o' s' t Hn. apply Hstep. now right.
    + inversion H; subst. eapply Hstep; [now left|exact E].
Qed.

(** A run leaves the store as it was, or is its loop over a window of the
    listed names. *)
Lemma perform_migrations_store self (d : Direction) st
  (o : result bool) st' (tr : list event) :
  _perform_migrations colored listdir import_module bounded_delete self d st = (o, st', tr) ->
  st' = st
  \/ exists (files listed : list string) (start : Z)
       (o' : result unit) (tr' : list event),
       listdir (folder self ++ "/" ++ "migrations") = Some files
       /\ Py.sorted (collect files) ordinal = Some listed
       /\ directed d listed <> []
       /\ starts (directed d listed) d (latest_row st) start
       /\ for_each (window_of (set_direction self d) (directed d listed) start)
            (_perform_single_migration colored import_module bounded_delete
               (set_direction self d)) st
          = (o', st', tr').
Proof.
  intros H. rewrite perform_migrations_eq in H.
  destruct (listdir (folder self ++ "/" ++ "migrations")) as [files|] eqn:Hl;
    [|inversion H; auto].
  destruct (Py.sorted (collect files) ordinal) as [listed|] eqn:Hs;
    [|inversion H; auto].
  cbn zeta in H.
  destruct (directed d listed) as [|f fs] eqn:Ef; [inversion H; auto|].
  rewrite <- Ef in H.
  assert (Hne: directed d listed <> []) by (rewrite Ef; discriminate).
  assert (Hloop: forall start,
             starts (directed d listed) d (latest_row st) start ->
             loop_from colored import_module bounded_delete (set_direction self d)
               (directed d listed) start st = (o, st', tr) ->
             st' = st
             \/ exists (files0 listed0 : list string) (start0 : Z)
                  (o' : result unit) (tr' : list event),
                  Some files = Some files0
                  /\ Py.sorted (collect files0) ordinal = Some listed0
                  /\ directed d listed0 <> []
                  /\ starts (directed d listed0) d (latest_row st) start0
                  /\ for_each
                       (window_of (set_direction self d) (directed d listed0)
                          start0)
                       (_perform_single_migration colored import_module bounded_delete
                          (set_direction self d)) st
                     = (o', st', tr')).
  { intros start Hst Hlf. unfold loop_from in Hlf.
    destruct (for_each _ _ st) as [[o' st''] tr'] eqn:E.
    right. exists files, listed, start, o', tr'.
    assert (st'' = st') as ->
      by (destruct o' as [[]|e]; unfold after_loop in Hlf; now inversion Hlf).
    repeat split; auto. }
  destruct (order_by_migration_desc (table st)) as [|r rest] eqn:Eo.
  - assert (Hlr: latest_row st = None) by (unfold latest_row; now rewrite Eo).
    destruct d; [|inversion H; auto].
    apply (Hloop 0); [rewrite Hlr; constructor|exact H].
  - assert (Hlr: latest_row st = Some r)
      by (unfold latest_row; now rewrite Eo).
    destruct (Py.index (migration r) (directed d listed)) as [i|] eqn:Hi;
      [|inversion H; auto].
    destruct d.
    + destruct (i =? Py.len (directed Up listed) - 1) eqn:Hlast;
        [inversion H; auto|].
      apply (Hloop (i + 1)); [|exact H]. rewrite Hlr.
      constructor; [exact Hi|]. now apply Z.eqb_neq.
    + apply (Hloop i); [|exact H]. rewrite Hlr. now constructor.
Qed.

Lemma delete_one_incl (name : string) (rows : list Row) :
  incl (delete_one name rows) rows.
Proof.
  induction rows as [|r rows IH]; simpl; [easy|].
  destruct (matching name r).
  - now apply incl_tl.
  - intros x [->|Hx]; [now left|right; now apply IH].
Qed.

Lemma delete_one_NoDup (name : string) (rows : list Row) :
  NoDup (map migration rows) -> NoDup (map migration (delete_one name rows)).
Proof.
  induction rows as [|r rows IH]; simpl; intros H; [constructor|].
  inversion H as [|? ? Hr Hrows]; subst.
  destruct (matching name r); [exact Hrows|].
  simpl. constructor; [|now apply IH].
  intros Hin. apply Hr. apply in_map_iff in Hin. destruct Hin as [q [Hq Hin]].
  apply in_map_iff. exists q. split; [exact Hq|].
  now apply (delete_one_incl name rows).
Qed.

Lemma delete_one_other (name n : string) (rows : list Row) :
  n <> name ->
  existsb (matching n) (delete_one name rows) = existsb (matching n) rows.
Proof.
  intros Hn. induction rows as [|r rows IH]; simpl; [reflexivity|].
  destruct (matching name r) eqn:E.
  - apply String.eqb_eq in E.
    assert (Hm: matching n r = false)
      by (apply String.eqb_neq; congruence).
    now rewrite Hm.
  - simpl. now rewrite IH.
Qed.

Lemma has_row_names name st : has_row name st = true <-> In name (names st).
Proof.
  rewrite has_row_In. unfold names. rewrite in_map_iff.
  split; intros [r [H1 H2]]; exists r; auto.
Qed.

Lemma has_row_false name st : has_row name st = false <-> ~ In name (names st).
Proof.
  rewrite <- has_row_names. destruct (has_row name st).
  - split; [discriminate|]. intros H. now elim H.
  - split; [discriminate|reflexivity].
Qed.

(** ** Invariants of a run *)

(** X1: a run never gives a unit a second row.  If no name is recorded
    twice before a run, none is after it, in either direction, whatever the
    count and the fake flag, and also when the run raises part way. *)
Theorem run_keeps_one_row_per_name self (d : Direction) st
  (o : result bool) st' (tr : list event) :
  NoDup (names st) ->
  _perform_migrations colored listdir import_module bounded_delete self d st = (o, st', tr) ->
  NoDup (names st').
Proof.
  intros Hn H. apply perform_migrations_store in H.
  destruct H as [->|(files & listed & start & o' & tr' & _ & _ & _ & _ & E)];
    [exact Hn|].
  revert Hn.
  apply (for_each_related (fun s s' => NoDup (names s) -> NoDup (names s'))
           (set_direction self d)
           (window_of (set_direction self d) (directed d listed) start))
    with (o := o') (tr := tr'); auto.
  intros name s o1 s' t _ Hstep Hs.
  destruct (single_table (set_direction self d) d _ _ _ _ _ eq_refl Hstep)
    as [[Ht _]|[(_ & Hr & _ & Ht & _)|(_ & _ & _ & Ht & _)]];
    unfold names in *; rewrite Ht.
  - exact Hs.
  - rewrite map_app. simpl. apply NoDup_app_remove_l with (l := []).
    simpl. apply (Permutation_NoDup (l := name :: map migration (table s))).
    + apply Permutation_cons_append.
    + constructor; [|exact Hs]. now apply has_row_false.
  - now apply delete_one_NoDup.
Qed.

Lemma has_row_app name st (added : list Row) st' :
  table st' = (table st ++ added)%list ->
  has_row name st' = has_row name st || existsb (matching name) added.
Proof. intros H. unfold has_row. rewrite H. apply existsb_app. Qed.

(** X2: going up only appends, going down only deletes.  An [up] run
    leaves every row where it was and appends rows, each for a unit that had
    none, taking one id per row; a [down] run adds no row and takes no id.
    Both hold when the run raises part way. *)
Theorem run_mutates_one_way self (d : Direction) st
  (o : result bool) st' (tr : list event) :
  _perform_migrations colored listdir import_module bounded_delete self d st = (o, st', tr) ->
  match d with
  | Up =>
      exists added : list Row,
        table st' = (table st ++ added)%list
        /\ serial st' = serial st + Py.len added
        /\ Forall (fun r => has_row (migration r) st = false) added
  | Down =>
      incl (table st') (table st)
      /\ (List.length (table st') <= List.length (table st))%nat
      /\ serial st' = serial st
  end.
Proof.
  intros H. apply perform_migrations_store in H.
  destruct H as [->|(files & listed & start & o' & tr' & _ & _ & _ & _ & E)].
  { destruct d.
    - exists []. rewrite app_nil_r.
      split; [reflexivity|]. split; [unfold Py.len; simpl; lia|constructor].
    - split; [apply incl_refl|]. split; [lia|reflexivity]. }
  destruct d.
  - apply (for_each_related
             (fun s s' =>
                exists added : list Row,
                  table s' = (table s ++ added)%list
                  /\ serial s' = serial s + Py.len added
                  /\ Forall (fun r => has_row (migration r) s = false) added)
             (set_direction self Up)
             (window_of (set_direction self Up) (directed Up listed) start))
      with (o := o') (tr := tr'); auto.
    + intros s. exists []. rewrite app_nil_r.
      split; [reflexivity|]. split; [unfold Py.len; simpl; lia|constructor].
    + intros s1 s2 s3 (a1 & Ht1 & Hs1 & Hf1) (a2 & Ht2 & Hs2 & Hf2).
      exists (a1 ++ a2)%list. rewrite Ht2, Ht1, app_assoc, Hs2, Hs1, len_app.
      split; [reflexivity|]. split; [lia|].
      apply Forall_app. split; [exact Hf1|].
      eapply Forall_impl; [|exact Hf2]. intros r Hr. cbn beta in *.
      rewrite (has_row_app _ _ _ _ Ht1) in Hr.
      now apply orb_false_iff in Hr.
    + intros name s o1 s' t _ Hstep.
      destruct (single_table (set_direction self Up) Up _ _ _ _ _ eq_refl Hstep)
        as [(Ht & Hs & _)|[(_ & Hr & _ & Ht & Hs & _)|(Hd & _)]];
        [| |discriminate].
      * exists []. rewrite app_nil_r.
        split; [exact Ht|]. split; [|constructor].
        rewrite Hs. unfold Py.len. simpl. lia.
      * exists [mkRow (serial s) name (clock s)].
        split; [exact Ht|]. split; [exact Hs|].
        constructor; [exact Hr|constructor].
  - apply (for_each_related
             (fun s s' =>
                incl (table s') (table s)
                /\ (List.length (table s') <= List.length (table s))%nat
                /\ serial s' = serial s)
             (set_direction self Down)
             (window_of (set_direction self Down) (directed Down listed) start))
      with (o := o') (tr := tr'); auto.
    + intros s. split; [apply incl_refl|]. split; [lia|reflexivity].
    + intros s1 s2 s3 (Hi1 & Hl1 & Hs1) (Hi2 & Hl2 & Hs2).
      split; [eapply incl_tran; eassumption|]. split; [lia|congruence].
    + intros name s o1 s' t _ Hstep.
      destruct (single_table (set_direction self Down) Down _ _ _ _ _ eq_refl
                  Hstep)
        as [(Ht & Hs & _)|[(Hd & _)|(_ & _ & _ & Ht & Hs & _)]];
        [|discriminate|]; rewrite Ht.
      * split; [apply incl_refl|]. split; [lia|exact Hs].
      * split; [apply delete_one_incl|]. split; [|exact Hs].
        clear. induction (table s) as [|r rows IH]; simpl; [lia|].
        destruct (matching name r); simpl; lia.
Qed.

Lemma In_firstn {A : Type} (x : A) (k : nat) (l : list A) :
  In x (firstn k l) -> In x l.
Proof.
  intros H. rewrite <- (firstn_skipn k l). apply in_or_app. now left.
Qed.

Lemma slice_In_skipn {A : Type} (x : A) (l : list A) (start stop : Z) :
  0 <= start ->
  In x (Py.slice l start stop) -> In x (skipn (Z.to_nat start) l).
Proof.
  intros Hs H. unfold Py.slice, Py.bound in H. apply In_firstn in H.
  replace (start <? 0) with false in H by (symmetry; apply Z.ltb_ge; lia).
  destruct (Z.le_gt_cases start (Py.len l)).
  - now rewrite Z.min_l in H by lia.
  - rewrite Z.min_r in H by lia.
    rewrite skipn_all2 in H by (unfold Py.len; lia). destruct H.
Qed.

(** A loop changes the rows of the units it walks and of no other. *)
Lemma for_each_outside self (d : Direction) (w : list string) st
  (o : result unit) st' (tr : list event) :
  direction self = Some d ->
  for_each w (_perform_single_migration colored import_module bounded_delete self) st
  = (o, st', tr) ->
  forall n, ~ In n w -> has_row n st' = has_row n st.
Proof.
  intros Hd H n Hn. revert H.
  apply (for_each_related (fun s s' => has_row n s' = has_row n s) self w);
    [reflexivity|intros; congruence|].
  intros name s o1 s' t Hin Hstep.
  assert (Hne: n <> name) by (intros ->; contradiction).
  destruct (single_table self d _ _ _ _ _ Hd Hstep)
    as [[Ht _]|[(_ & _ & _ & Ht & _)|(_ & _ & _ & Ht & _)]];
    unfold has_row; rewrite Ht.
  - reflexivity.
  - rewrite existsb_app. simpl. unfold matching at 2. simpl.
    destruct (String.eqb_spec name n); [congruence|].
    now rewrite !orb_false_r.
  - now apply delete_one_other.
Qed.

(** In a list without repetition, the index in the reversed list. *)
Lemma index_rev (x : string) (front back : list string) :
  NoDup (front ++ x :: back) ->
  Py.index x (rev (front ++ x :: back)) = Some (Py.len back).
Proof.
  intros H. rewrite rev_app_distr. cbn [rev]. rewrite <- app_assoc. cbn [app].
  replace (Py.len back) with (Py.len (rev back))
    by (unfold Py.len; now rewrite length_rev).
  apply index_NoDup.
  replace (rev back ++ x :: rev front)%list with (rev (front ++ x :: back)).
  - apply (Permutation_NoDup (l := front ++ x :: back)); [|exact H].
    apply Permutation_rev.
  - rewrite rev_app_distr. cbn [rev]. now rewrite <- app_assoc.
Qed.

Lemma index_split (x : string) (l : list string) (p : Z) :
  Py.index x l = Some p ->
  exists front back,
    l = (front ++ x :: back)%list /\ Py.len front = p /\ ~ In x front.
Proof.
  intros H. destruct (index_Some _ _ _ H) as [Hb [Hn Hf]].
  apply nth_error_split in Hn. destruct Hn as [front [back [Hl Hlen]]].
  exists front, back. split; [exact Hl|]. split.
  - unfold Py.len. lia.
  - rewrite Hl, <- Hlen in Hf.
    rewrite firstn_app, firstn_all, Nat.sub_diag in Hf. cbn in Hf.
    now rewrite app_nil_r in Hf.
Qed.

(** ** The units a run can touch *)

(** X3: a run touches only its side of the latest row.  When the latest row
    names the unit at position [p] of the sequence, an [up] run changes rows
    only of units after position [p] and a [down] run only of units up to
    position [p]: every other name is recorded after the run exactly if it
    was before.  The latest row is the one whose name is greatest as a
    string, so a unit listed after it is never reverted and a unit listed
    before it is never applied, recorded or not. *)
Theorem run_stays_on_its_side self (d : Direction) st
  (files listed : list string) (r : Row) (p : Z)
  (o : result bool) st' (tr : list event) :
  listdir (folder self ++ "/" ++ "migrations") = Some files ->
  NoDup files ->
  Py.sorted (collect files) ordinal = Some listed ->
  latest_row st = Some r ->
  Py.index (migration r) listed = Some p ->
  _perform_migrations colored listdir import_module bounded_delete self d st = (o, st', tr) ->
  forall n, ~ In n (reach d listed (Z.to_nat p)) ->
            has_row n st' = has_row n st.
Proof.
  intros Hl Hnd Hs Hr Hp H n Hn.
  pose proof (sorted_NoDup _ _ Hnd Hs) as Hno.
  apply perform_migrations_store in H.
  destruct H as [->|(files' & listed' & start & o' & tr' & Hl' & Hs' & _ & Hst & E)];
    [reflexivity|].
  rewrite Hl in Hl'. inversion Hl'; subst files'.
  rewrite Hs in Hs'. inversion Hs'; subst listed'.
  apply (for_each_outside (set_direction self d) d _ _ _ _ _ eq_refl E).
  intros Hin. apply Hn. clear Hn E.
  pose proof (starts_bounds _ _ _ _ Hst) as Hb.
  unfold window_of in Hin. apply slice_In_skipn in Hin; [|lia].
  destruct (index_split _ _ _ Hp) as [front [back [Hsplit [Hlen Hfront]]]].
  assert (Hpn: Z.to_nat p = List.length front) by (unfold Py.len in Hlen; lia).
  subst listed p.
  rewrite Hr in Hst. inversion Hst as [|r' i Hi Hne|r' i Hi]; subst.
  - (* up: the window lies after position p *)
    cbn [directed] in *. rewrite Hp in Hi. inversion Hi; subst i.
    cbn [reach]. rewrite Hpn.
    replace (Z.to_nat (Py.len front + 1)) with (S (List.length front)) in Hin
      by (unfold Py.len; lia).
    exact Hin.
  - (* down: the window lies at and before position p *)
    cbn [directed reach] in *.
    rewrite (index_rev _ _ _ Hno) in Hi.
    inversion Hi; subst start.
    rewrite rev_app_distr in Hin. cbn [rev] in Hin.
    rewrite <- app_assoc in Hin. cbn [app] in Hin.
    rewrite skipn_app in Hin.
    replace (Z.to_nat (Py.len back)) with (List.length (rev back)) in Hin
      by (rewrite length_rev; unfold Py.len; lia).
    rewrite skipn_all, Nat.sub_diag in Hin. cbn [app skipn] in Hin.
    rewrite Hpn.
    replace (S (List.length front)) with (List.length (front ++ [migration r]))
      by (rewrite length_app; simpl; lia).
    replace (front ++ migration r :: back)%list
      with ((front ++ [migration r]) ++ back)%list
      by (now rewrite <- app_assoc).
    rewrite firstn_app, firstn_all, Nat.sub_diag. cbn [firstn].
    rewrite app_nil_r. apply in_or_app.
    destruct Hin as [->|Hin]; [right; now left|].
    left. now apply in_rev.
Qed.

(** ** A unit whose operation raises *)

(** X4: the row is written only after the operation returned.  In a run
    that is not faked, when the operation of a unit that is not skipped
    raises, the run raises the same exception there: the unit was imported
    and called, the ledger is as the units before it left it (no row
    inserted or deleted for the unit), what the operation did to the rest of
    the database stays, and no later unit is looked at. *)
Theorem failing_operation_aborts self (d : Direction) st
  (files listed : list string) (start : Z)
  (before after : list string) (name : string)
  st1 (tr1 : list event) (m : PyModule Schema) (op : unit_op Schema)
  (e : exn) (sch : Schema) :
  fake self = false ->
  listdir (folder self ++ "/" ++ "migrations") = Some files ->
  Py.sorted (collect files) ordinal = Some listed ->
  directed d listed <> [] ->
  starts (directed d listed) d (latest_row st) start ->
  let self' := set_direction self d in
  let filenames := directed d listed in
  let stop := if count self =? 0 then Py.len filenames else start + count self in
  let w := Py.slice filenames start stop in
  w = (before ++ name :: after)%list ->
  for_each before (_perform_single_migration colored import_module bounded_delete self') st
  = (Ok tt, st1, tr1) ->
  acted d name st1 = true ->
  import_module (module_of self name) = Some m ->
  getattr m d = Some op ->
  op (schema st1) = (Raise e, sch) ->
  let run := _perform_migrations colored listdir import_module bounded_delete self d st in
  run
  = (Raise e,
     {| table := table st1; serial := serial st1; clock := clock st1;
        schema := sch |},
     (Fetched SelectLatest :: notice colored self' w ++ tr1
      ++ [Fetched (SelectIdWhereMigration name);
          Printed (msg_going colored self' name);
          Printed (msg_importing colored (module_of self name));
          Imported (module_of self name);
          Called (module_of self name) (direction_name d)])%list)
  /\ attempted (snd run) = (before ++ [name])%list.
Proof.
  intros Hf Hl Hs Hne Hst self' filenames stop w Hw Hbefore Ha Hm Hg Hop run.
  assert (Hrun: run = loop_from colored import_module bounded_delete self' filenames start st)
    by (apply (perform_migrations_loop self d st files listed start); assumption).
  assert (Hloop:
    for_each w (_perform_single_migration colored import_module bounded_delete self') st
    = (Raise e, with_schema st1 sch,
       (tr1 ++ [Fetched (SelectIdWhereMigration name);
                Printed (msg_going colored self' name);
                Printed (msg_importing colored (module_of self name));
                Imported (module_of self name);
                Called (module_of self name) (direction_name d)])%list)).
  { rewrite Hw, for_each_app, Hbefore, for_each_cons.
    rewrite (single_real self' d name st1 eq_refl Hf Ha). cbn zeta.
    change (module_of self' name) with (module_of self name).
    now rewrite Hm, Hg, Hop. }
  assert (Hrun': run
    = (Raise e, with_schema st1 sch,
       (Fetched SelectLatest :: notice colored self' w ++ tr1
        ++ [Fetched (SelectIdWhereMigration name);
            Printed (msg_going colored self' name);
            Printed (msg_importing colored (module_of self name));
            Imported (module_of self name);
            Called (module_of self name) (direction_name d)])%list)).
  { rewrite Hrun. unfold loop_from.
    change (window_of self' filenames start) with w. now rewrite Hloop. }
  split; [exact Hrun'|].
  rewrite Hrun'. cbn [snd].
  change (Fetched SelectLatest :: notice colored self' w ++ ?x)%list
    with ((Fetched SelectLatest :: notice colored self' w) ++ x)%list.
  rewrite attempted_app, notice_attempted, attempted_app. cbn [app].
  destruct (for_each_attempted _ _ _ _ _ _ Hbefore) as [_ Hb].
  now rewrite (Hb eq_refl).
Qed.

(** ** More on the catalog *)

Lemma collect_flat_map (files : list string) :
  collect files = flat_map candidate files.
Proof.
  induction files as [|f files IH]; [reflexivity|].
  rewrite collect_cons. cbn [flat_map]. rewrite <- IH. unfold candidate.
  destruct (Py.rsplit_last "." f) as [[a b]|]; [|reflexivity].
  now destruct (String.eqb b "py" && negb (String.eqb a "__init__")).
Qed.

Lemma collect_Permutation (files1 files2 : list string) :
  Permutation files1 files2 -> Permutation (collect files1) (collect files2).
Proof.
  intros H. rewrite !collect_flat_map. now apply Permutation_flat_map.
Qed.

Lemma sorted_keys (l names : list string) :
  Py.sorted l ordinal = Some names ->
  Forall (fun name => ordinal name <> None) l.
Proof.
  unfold Py.sorted. destruct (Py.keyed ordinal l) as [kl|] eqn:E; [|discriminate].
  intros _. destruct (keyed_Some _ _ _ E) as [Hm Hk]. rewrite <- Hm.
  rewrite Forall_map. eapply Forall_impl; [|exact Hk].
  intros p Hp. cbn beta in Hp. now rewrite Hp.
Qed.

(** Two lists in ascending order of ordinal, with the same elements of
    pairwise different ordinals, are the same list. *)
Lemma sorted_unique (l1 l2 : list string) :
  StronglySorted ordinal_le l1 -> StronglySorted ordinal_le l2 ->
  Permutation l1 l2 ->
  NoDup (map ordinal l1) ->
  l1 = l2.
Proof.
  intros H1. revert l2. induction H1 as [|x l1 Hs1 IH Hx]; intros l2 H2 Hp Hn.
  - apply Permutation_nil in Hp. now subst.
  - destruct l2 as [|y l2];
      [apply Permutation_sym, Permutation_nil in Hp; discriminate|].
    inversion H2 as [|? ? Hs2 Hy]; subst.
    inversion Hn as [|? ? Hox Hn1]; subst.
    assert (Hxy: x = y).
    { assert (Hin: In x (y :: l2))
        by (eapply Permutation_in; [exact Hp|now left]).
      destruct Hin as [->|Hin]; [reflexivity|].
      assert (Hin': In y (x :: l1))
        by (eapply Permutation_in; [symmetry; exact Hp|now left]).
      destruct Hin' as [->|Hin']; [reflexivity|].
      exfalso. rewrite Forall_forall in Hx, Hy.
      specialize (Hx y Hin'). specialize (Hy x Hin).
      unfold ordinal_le in Hx, Hy.
      destruct (ordinal x) as [a|] eqn:Ea; [|contradiction].
      destruct (ordinal y) as [b|] eqn:Eb; [|contradiction].
      apply Hox. assert (a = b) by lia. subst b.
      rewrite <- Eb. now apply in_map. }
    subst y. f_equal. apply IH; auto.
    now apply Permutation_cons_inv in Hp.
Qed.

(** X5: what is listed.  When the listing succeeds, a name is in the
    sequence exactly if the directory holds the file [name.py] and the name
    is not [__init__]: files with another extension or with none, and the
    package file, are left out without error.  A directory lists no file
    twice, so the sequence names no unit twice. *)
Theorem retreive_filenames_membership self st (files names : list string)
  st' (tr : list event) :
  listdir (folder self ++ "/" ++ "migrations") = Some files ->
  _retreive_filenames listdir self st = (Ok names, st', tr) ->
  (forall base : string,
      In base names <-> In (base ++ ".py") files /\ base <> "__init__")
  /\ (NoDup files -> NoDup names).
Proof.
  intros Hl H. rewrite retreive_filenames_eq, Hl in H.
  destruct (Py.sorted (collect files) ordinal) as [names'|] eqn:Hs;
    inversion H; subst.
  split.
  - intros base. rewrite <- collect_In.
    destruct (sorted_by_ordinal _ _ Hs) as [Hp _].
    split; intros Hin.
    + eapply Permutation_in; [symmetry; exact Hp|exact Hin].
    + eapply Permutation_in; [exact Hp|exact Hin].
  - intros Hn. exact (sorted_NoDup _ _ Hn Hs).
Qed.

(** X6: the order of the directory listing does not matter when ordinals
    differ.  If the candidate names have pairwise different ordinals, any
    other listing of the same files gives the same sequence. *)
Theorem retreive_filenames_listing_order
  (listdir2 : string -> option (list string)) self st
  (files files2 names : list string) :
  listdir (folder self ++ "/" ++ "migrations") = Some files ->
  listdir2 (folder self ++ "/" ++ "migrations") = Some files2 ->
  Permutation files files2 ->
  NoDup (map ordinal (collect files)) ->
  _retreive_filenames listdir self st = (Ok names, st, []) ->
  _retreive_filenames listdir2 self st = (Ok names, st, []).
Proof.
  intros Hl Hl2 Hp Hn H. rewrite retreive_filenames_eq, Hl in H.
  unfold _retreive_filenames, bind, lift_option, ret, raise. rewrite Hl2.
  destruct (Py.sorted (collect files) ordinal) as [names'|] eqn:Hs;
    inversion H; subst names'; clear H.
  pose proof (collect_Permutation _ _ Hp) as Hc.
  destruct (sorted_by_ordinal _ _ Hs) as [Hp1 [Hs1 _]].
  assert (Hall: Forall (fun name => ordinal name <> None) (collect files2)).
  { pose proof (sorted_keys _ _ Hs) as Hk. rewrite Forall_forall in *.
    intros x Hx. apply Hk.
    eapply Permutation_in; [symmetry; exact Hc|exact Hx]. }
  destruct (sorted_total _ Hall) as [names2 Hs2]. rewrite Hs2.
  destruct (sorted_by_ordinal _ _ Hs2) as [Hp2 [Hs2' _]].
  do 2 f_equal. f_equal. symmetry. apply sorted_unique; auto.
  - rewrite <- Hp1, Hc. exact Hp2.
  - apply (Permutation_NoDup (l := map ordinal (collect files))); [|exact Hn].
    now apply Permutation_map.
Qed.

(** X7: a catalog without candidates.  When the directory holds no file
    [name.py] other than [__init__.py], a run in either direction returns
    [True] at once: it does not read the ledger, prints nothing and changes
    nothing, whatever the ledger holds. *)
Theorem run_over_no_candidates self (d : Direction) st (files : list string) :
  listdir (folder self ++ "/" ++ "migrations") = Some files ->
  (forall base : string, In (base ++ ".py") files -> base = "__init__") ->
  _perform_migrations colored listdir import_module bounded_delete self d st
  = (Ok true, st, []).
Proof.
  intros Hl Hnone.
  assert (Hc: collect files = []).
  { destruct (collect files) as [|x l] eqn:E; [reflexivity|].
    assert (Hx: In x (collect files)) by (rewrite E; now left).
    apply collect_In in Hx. destruct Hx as [Hx Hn]. now elim Hn; apply Hnone. }
  rewrite perform_migrations_eq, Hl, Hc. cbn. now destruct d.
Qed.

(** ** Catalogs in string order *)

Lemma ltb_not_leb (a b : string) :
  String.ltb a b = true -> String.leb b a = false.
Proof.
  unfold String.ltb, String.leb. rewrite (String.compare_antisym b a).
  now destruct (String.compare a b).
Qed.

Lemma ltb_irrefl (a : string) : String.ltb a a = false.
Proof. unfold String.ltb. now rewrite string_compare_refl. Qed.

Lemma ascending_NoDup (l : list string) : ascending l -> NoDup l.
Proof.
  induction 1 as [|x l Hs IH Hx]; constructor; [|exact IH].
  intros Hin. rewrite Forall_forall in Hx. specialize (Hx x Hin).
  now rewrite ltb_irrefl in Hx.
Qed.

Lemma ascending_below (front back : list string) (x : string) :
  ascending (front ++ x :: back) ->
  Forall (fun y => String.ltb y x = true) front.
Proof.
  induction front as [|y front IH]; intros H; [constructor|].
  cbn [app] in H. inversion H as [|? ? Hs Hy]; subst.
  constructor; [|now apply IH].
  rewrite Forall_forall in Hy. apply Hy, in_or_app. right. now left.
Qed.

Lemma names_nil st : names st = [] <-> table st = [].
Proof.
  unfold names. split; [apply map_eq_nil|now intros ->].
Qed.

(** The latest row of a ledger that holds the names up to [x] of a catalog
    in string order names [x]. *)
Lemma latest_of_prefix st (front back : list string) (x : string) :
  ascending (front ++ x :: back) ->
  names st = (front ++ [x])%list ->
  exists r, latest_row st = Some r /\ migration r = x.
Proof.
  intros Ha Hn.
  destruct (latest_row st) as [r|] eqn:Hr.
  - exists r. split; [reflexivity|].
    destruct (latest_row_head _ _ Hr) as [Hin Hge].
    assert (Hm: In (migration r) (front ++ [x]))
      by (rewrite <- Hn; unfold names; now apply in_map).
    apply in_app_or in Hm. destruct Hm as [Hm|[Hm|[]]]; [|now symmetry].
    exfalso.
    pose proof (ascending_below _ _ _ Ha) as Hb. rewrite Forall_forall in Hb.
    specialize (Hb _ Hm). apply ltb_not_leb in Hb.
    assert (Hx: has_row x st = true).
    { apply has_row_names. rewrite Hn. apply in_or_app. right. now left. }
    apply has_row_In in Hx. destruct Hx as [q [Hq Hqm]].
    rewrite Forall_forall in Hge. specialize (Hge q Hq).
    unfold name_ge in Hge. rewrite Hqm in Hge. congruence.
  - apply latest_row_None, names_nil in Hr. rewrite Hr in Hn.
    now destruct front.
Qed.

Lemma firstn_last {A : Type} (k : nat) (l : list A) :
  (S k <= List.length l)%nat ->
  exists x, firstn (S k) l = (firstn k l ++ [x])%list
            /\ l = (firstn k l ++ x :: skipn (S k) l)%list.
Proof.
  revert l. induction k as [|k IH]; intros [|a l] H; simpl in H; try lia.
  - exists a. split; reflexivity.
  - destruct (IH l) as [x [H1 H2]]; [lia|]. exists x.
    split.
    + change (firstn (S (S k)) (a :: l)) with (a :: firstn (S k) l).
      now rewrite H1.
    + change (firstn (S k) (a :: l)) with (a :: firstn k l).
      change (skipn (S (S k)) (a :: l)) with (skipn (S k) l).
      cbn [app]. now rewrite <- H2.
Qed.

(** Where a ledger that holds the first [k] names of a catalog in string
    order has its latest row. *)
Lemma aligned_latest st (listed : list string) (k : nat) :
  ascending listed ->
  names st = firstn k listed ->
  (k <= List.length listed)%nat ->
  match k with
  | O => latest_row st = None
  | S k' =>
      exists r,
        latest_row st = Some r
        /\ Py.index (migration r) listed = Some (Z.of_nat k')
        /\ Py.index (migration r) (rev listed)
           = Some (Py.len listed - Z.of_nat k)
  end.
Proof.
  intros Ha Hn Hk. destruct k as [|k].
  - apply latest_row_None, names_nil. exact Hn.
  - destruct (firstn_last k listed Hk) as [x [Hf Hl]].
    rewrite Hf in Hn. rewrite Hl in Ha.
    destruct (latest_of_prefix _ _ _ _ Ha Hn) as [r [Hr Hm]].
    exists r. split; [exact Hr|]. rewrite Hm.
    pose proof (ascending_NoDup _ Ha) as Hno.
    assert (Hlen: List.length (firstn k listed) = k)
      by (rewrite length_firstn; lia).
    split.
    + rewrite Hl at 1. rewrite (index_NoDup _ _ _ Hno).
      unfold Py.len. now rewrite Hlen.
    + rewrite Hl at 1. rewrite (index_rev _ _ _ Hno). f_equal.
      unfold Py.len. rewrite length_skipn. lia.
Qed.

Lemma names_delete_last (rows : list Row) (l : list string) (x : string) :
  map migration rows = (l ++ [x])%list -> ~ In x l ->
  map migration (delete_one x rows) = l.
Proof.
  revert rows. induction l as [|y l IH]; intros rows Hm Hx.
  - destruct rows as [|r [|r' rows]]; try discriminate.
    cbn in Hm. inversion Hm as [Hr]. cbn. unfold matching.
    now rewrite String.eqb_refl.
  - destruct rows as [|r rows]; [discriminate|].
    cbn in Hm. inversion Hm as [[Hr Hrows]]. cbn [delete_one].
    unfold matching at 1.
    destruct (String.eqb_spec (migration r) x) as [E|E].
    + exfalso. apply Hx. left. congruence.
    + cbn [map]. f_equal. apply IH; [exact Hrows|].
      intros Hin. apply Hx. now right.
Qed.

(** A unit that is ready and not skipped is handled to the end when the
    store takes the ledger statement. *)
Lemma single_ready self (d : Direction) name st :
  direction self = Some d ->
  accepted bounded_delete d = true ->
  acted d name st = true ->
  unit_ready import_module self d name ->
  exists st' (tr : list event),
    _perform_single_migration colored import_module bounded_delete self name st
    = (Ok true, st', tr)
    /\ table st'
       = match d with
         | Up => (table st ++ [mkRow (serial st) name (clock st)])%list
         | Down => delete_one name (table st)
         end.
Proof.
  intros Hd Hacc Ha Hready. destruct (fake self) eqn:Hf.
  - destruct d; simpl in Ha.
    + apply negb_true_iff in Ha. rewrite (single_up_fake self name st Hd Hf Ha).
      eexists. eexists. split; reflexivity.
    + rewrite (single_down_fake self name st Hd Hf Ha).
      cbn in Hacc. rewrite Hacc.
      eexists. eexists. split; reflexivity.
  - destruct Hready as [Hc|(m & op & Hm & Hg & Hop)]; [congruence|].
    rewrite (single_real self d name st Hd Hf Ha). cbn zeta.
    rewrite Hm, Hg, Hacc.
    specialize (Hop (schema st)).
    destruct (op (schema st)) as [r sch]. cbn in Hop. subst r.
    eexists. eexists. split; [reflexivity|]. now destruct d.
Qed.

(** Going down on a store that does not take the [DELETE], a unit that is
    ready and recorded is imported and called unless the run is faked; then
    the statement raises and the row stays. *)
Lemma single_rejected self name st :
  direction self = Some Down ->
  bounded_delete = false ->
  has_row name st = true ->
  unit_ready import_module self Down name ->
  exists st' (tr : list event),
    _perform_single_migration colored import_module bounded_delete self name st
    = (Raise DatabaseError, st', tr)
    /\ table st' = table st
    /\ attempted tr = [name]
    /\ called tr
       = if fake self then [] else [(module_of self name, "down")].
Proof.
  intros Hd Hb Hr Hready. destruct (fake self) eqn:Hf.
  - rewrite (single_down_fake self name st Hd Hf Hr), Hb.
    eexists. eexists. repeat split.
  - destruct Hready as [Hc|(m & op & Hm & Hg & Hop)]; [congruence|].
    rewrite (single_real self Down name st Hd Hf Hr). cbn zeta.
    rewrite Hm, Hg. cbn [accepted]. rewrite Hb.
    specialize (Hop (schema st)).
    destruct (op (schema st)) as [r sch]. cbn in Hop. subst r.
    eexists. eexists. repeat split.
Qed.

(** Going up over units none of which is recorded: each gets its row, in
    the order of the window. *)
Lemma for_each_up_fresh self (w : list string) st :
  direction self = Some Up ->
  NoDup w ->
  (forall n, In n w -> has_row n st = false) ->
  (forall n, In n w -> unit_ready import_module self Up n) ->
  exists st' (tr : list event),
    for_each w (_perform_single_migration colored import_module bounded_delete self) st
    = (Ok tt, st', tr)
    /\ names st' = (names st ++ w)%list.
Proof.
  intros Hd. revert st. induction w as [|name w IH]; intros st Hn Hfresh Hready.
  - exists st, []. split; [reflexivity|now rewrite app_nil_r].
  - inversion Hn as [|? ? Hname Hw]; subst.
    destruct (single_ready self Up name st Hd eq_refl)
      as (st1 & tr1 & E1 & Ht1).
    { simpl. rewrite Hfresh; [reflexivity|now left]. }
    { apply Hready. now left. }
    destruct (IH st1 Hw) as (st2 & tr2 & E2 & Ht2).
    { intros n Hin. unfold has_row. rewrite Ht1, existsb_app. simpl.
      rewrite orb_false_r. apply orb_false_iff. split.
      - apply Hfresh. now right.
      - apply String.eqb_neq. cbn. intros E. subst n. contradiction. }
    { intros n Hin. apply Hready. now right. }
    rewrite for_each_cons, E1, E2. eexists. eexists. split; [reflexivity|].
    rewrite Ht2. unfold names. rewrite Ht1, map_app, <- app_assoc.
    reflexivity.
Qed.

(** Going down over the units recorded last, latest first: each loses its
    row. *)
Lemma for_each_down_recorded self (w base : list string) st :
  direction self = Some Down ->
  bounded_delete = true ->
  names st = (base ++ rev w)%list ->
  NoDup (base ++ rev w) ->
  (forall n, In n w -> unit_ready import_module self Down n) ->
  exists st' (tr : list event),
    for_each w (_perform_single_migration colored import_module bounded_delete self) st
    = (Ok tt, st', tr)
    /\ names st' = base.
Proof.
  intros Hd Hacc. revert st.
  induction w as [|name w IH]; intros st Hn Hno Hready.
  - exists st, []. split; [reflexivity|]. cbn in Hn. now rewrite app_nil_r in Hn.
  - cbn [rev] in Hn, Hno. rewrite app_assoc in Hn, Hno.
    assert (Hx: ~ In name (base ++ rev w)).
    { apply NoDup_remove_2 in Hno. now rewrite app_nil_r in Hno. }
    destruct (single_ready self Down name st Hd Hacc)
      as (st1 & tr1 & E1 & Ht1).
    { simpl. apply has_row_names. rewrite Hn. apply in_or_app. right. now left. }
    { apply Hready. now left. }
    destruct (IH st1) as (st2 & tr2 & E2 & Ht2).
    { unfold names. rewrite Ht1. now apply names_delete_last. }
    { apply NoDup_remove_1 in Hno. now rewrite app_nil_r in Hno. }
    { intros n Hin. apply Hready. now right. }
    rewrite for_each_cons, E1, E2. eexists. eexists. split; [reflexivity|].
    exact Ht2.
Qed.

Lemma firstn_add {A : Type} (k c : nat) (l : list A) :
  firstn (k + c) l = (firstn k l ++ firstn c (skipn k l))%list.
Proof.
  revert l. induction k as [|k IH]; intros l; [reflexivity|].
  destruct l as [|a l]; [cbn; now rewrite firstn_nil|].
  cbn. now rewrite IH.
Qed.

Lemma window_nonneg self (filenames : list string) (start : Z) :
  0 <= count self -> 0 <= start ->
  window_of self filenames start
  = if count self =? 0 then skipn (Z.to_nat start) filenames
    else firstn (Z.to_nat (count self)) (skipn (Z.to_nat start) filenames).
Proof.
  intros Hc Hs. unfold window_of, stop_of.
  destruct (Z.eqb_spec (count self) 0).
  - now apply slice_all.
  - apply slice_count; lia.
Qed.

Lemma loop_from_ok self (filenames : list string) (start : Z) st
  st' (tr : list event) :
  for_each (window_of self filenames start)
    (_perform_single_migration colored import_module bounded_delete self) st
  = (Ok tt, st', tr) ->
  loop_from colored import_module bounded_delete self filenames start st
  = (Ok true, st',
     (Fetched SelectLatest
      :: notice colored self (window_of self filenames start) ++ tr)%list).
Proof. intros H. unfold loop_from. now rewrite H. Qed.

Lemma perform_migrations_blocked_up self st (files listed : list string)
  (r : Row) :
  listdir (folder self ++ "/" ++ "migrations") = Some files ->
  Py.sorted (collect files) ordinal = Some listed ->
  latest_row st = Some r ->
  Py.index (migration r) listed = Some (Py.len listed - 1) ->
  _perform_migrations colored listdir import_module bounded_delete self Up st
  = (Ok false, st,
     [Fetched SelectLatest;
      Printed (msg_nothing colored (set_direction self Up))]).
Proof.
  intros Hl Hs Hr Hi. rewrite perform_migrations_eq, Hl, Hs. cbn zeta.
  cbn [directed]. unfold latest_row in Hr.
  destruct listed as [|f fs] eqn:El; [discriminate Hi|]. rewrite <- El in *.
  destruct (order_by_migration_desc (table st)) as [|r' rest]; [discriminate|].
  inversion Hr; subst r'. rewrite Hi, El. lazy iota. rewrite <- El.
  now rewrite Z.eqb_refl.
Qed.

Lemma perform_migrations_blocked_down self st (files listed : list string) :
  listdir (folder self ++ "/" ++ "migrations") = Some files ->
  Py.sorted (collect files) ordinal = Some listed ->
  listed <> [] ->
  latest_row st = None ->
  _perform_migrations colored listdir import_module bounded_delete self Down st
  = (Ok false, st,
     [Fetched SelectLatest;
      Printed (msg_nothing colored (set_direction self Down))]).
Proof.
  intros Hl Hs Hne Hr. rewrite perform_migrations_eq, Hl, Hs. cbn zeta.
  destruct (directed Down listed) as [|f fs] eqn:Ef.
  - simpl in Ef. apply (f_equal (@rev string)) in Ef.
    rewrite rev_involutive in Ef. now elim Hne.
  - unfold latest_row in Hr.
    now destruct (order_by_migration_desc (table st)).
Qed.

Lemma NoDup_firstn {A : Type} (k : nat) (l : list A) :
  NoDup l -> NoDup (firstn k l).
Proof.
  intros H. rewrite <- (firstn_skipn k l) in H.
  now apply NoDup_app_remove_r in H.
Qed.

Lemma NoDup_skipn {A : Type} (k : nat) (l : list A) :
  NoDup l -> NoDup (skipn k l).
Proof.
  intros H. rewrite <- (firstn_skipn k l) in H.
  now apply NoDup_app_remove_l in H.
Qed.

Lemma NoDup_split_disjoint {A : Type} (k : nat) (l : list A) (x : A) :
  NoDup l -> In x (skipn k l) -> ~ In x (firstn k l).
Proof.
  intros H Hs Hf. rewrite <- (firstn_skipn k l) in H.
  revert H Hs Hf. generalize (firstn k l) (skipn k l). intros a b.
  induction a as [|y a IH]; intros H Hs Hf; [destruct Hf|].
  cbn [app] in H. inversion H as [|? ? Hy Ha]; subst.
  destruct Hf as [->|Hf]; [|now apply IH].
  apply Hy, in_or_app. now right.
Qed.

(** An [up] run over a catalog in string order, on a ledger that holds its
    first [k] names. *)
Lemma up_advance self st (files listed : list string) (k : nat) :
  listdir (folder self ++ "/" ++ "migrations") = Some files ->
  Py.sorted (collect files) ordinal = Some listed ->
  ascending listed ->
  names st = firstn k listed ->
  (k <= List.length listed)%nat ->
  0 <= count self ->
  (forall n, In n listed -> unit_ready import_module self Up n) ->
  exists (b : bool) st' (tr : list event),
    _perform_migrations colored listdir import_module bounded_delete self Up st
    = (Ok b, st', tr)
    /\ names st'
       = firstn (if count self =? 0 then List.length listed
                 else k + Z.to_nat (count self)) listed.
Proof.
  intros Hl Hs Ha Hn Hk Hc Hready.
  pose proof (ascending_NoDup _ Ha) as Hno.
  pose proof (aligned_latest st listed k Ha Hn Hk) as Hlat.
  assert (Hfull: k = List.length listed ->
                 names st = firstn (if count self =? 0 then List.length listed
                                    else k + Z.to_nat (count self)) listed).
  { intros ->. rewrite Hn, firstn_all. symmetry. apply firstn_all2.
    destruct (count self =? 0); lia. }
  destruct (Nat.eq_dec k (List.length listed)) as [Hkl|Hkl].
  { (* nothing left: the run changes nothing *)
    destruct k as [|k'].
    - destruct listed as [|f fs]; [|discriminate Hkl].
      exists true, st, []. rewrite perform_migrations_eq, Hl, Hs. cbn.
      split; [reflexivity|]. rewrite Hn. now rewrite !firstn_nil.
    - destruct Hlat as (r & Hr & Hi & _).
      eexists. exists st. eexists. split.
      + apply (perform_migrations_blocked_up self st files listed r Hl Hs Hr).
        rewrite Hi. f_equal. unfold Py.len. lia.
      + now apply Hfull. }
  assert (Hlt: (k < List.length listed)%nat) by lia.
  assert (Hne: directed Up listed <> [])
    by (cbn; intros E; rewrite E in Hlt; simpl in Hlt; lia).
  assert (Hst: starts (directed Up listed) Up (latest_row st) (Z.of_nat k)).
  { cbn [directed]. destruct k as [|k'].
    - rewrite Hlat. constructor.
    - destruct Hlat as (r & Hr & Hi & _). rewrite Hr.
      replace (Z.of_nat (S k')) with (Z.of_nat k' + 1) by lia.
      constructor; [exact Hi|]. unfold Py.len. lia. }
  rewrite (perform_migrations_loop self Up st files listed (Z.of_nat k)
             Hl Hs Hne Hst).
  cbn [directed]. set (self' := set_direction self Up).
  assert (Hw: window_of self' listed (Z.of_nat k)
              = if count self =? 0 then skipn k listed
                else firstn (Z.to_nat (count self)) (skipn k listed)).
  { rewrite window_nonneg by (cbn; lia). cbn [count self' set_direction].
    now rewrite Nat2Z.id. }
  assert (Hin: forall n, In n (window_of self' listed (Z.of_nat k)) ->
                         In n (skipn k listed)).
  { intros n. rewrite Hw. destruct (count self =? 0); [auto|apply In_firstn]. }
  destruct (for_each_up_fresh self' (window_of self' listed (Z.of_nat k)) st
              eq_refl) as (st' & tr & E & Hnames).
  { rewrite Hw. destruct (count self =? 0);
      [|apply NoDup_firstn]; now apply NoDup_skipn. }
  { intros n Hn'. apply has_row_false. rewrite Hn.
    apply NoDup_split_disjoint; [exact Hno|now apply Hin]. }
  { intros n Hn'. apply Hready. apply (In_skipn n k). now apply Hin. }
  rewrite (loop_from_ok _ _ _ _ _ _ E).
  exists true, st'. eexists. split; [reflexivity|].
  rewrite Hnames, Hn, Hw. destruct (count self =? 0).
  - rewrite firstn_skipn. symmetry. apply firstn_all.
  - symmetry. apply firstn_add.
Qed.

(** The window of a [down] run over a catalog in string order, on a ledger
    that holds its first names up to a latest one. *)
Lemma down_window self st (files listed : list string) (k' : nat) :
  listdir (folder self ++ "/" ++ "migrations") = Some files ->
  Py.sorted (collect files) ordinal = Some listed ->
  ascending listed ->
  names st = firstn (S k') listed ->
  (S k' <= List.length listed)%nat ->
  0 <= count self ->
  let self' := set_direction self Down in
  let start := Py.len listed - Z.of_nat (S k') in
  _perform_migrations colored listdir import_module bounded_delete self Down st
  = loop_from colored import_module bounded_delete self' (rev listed) start st
  /\ window_of self' (rev listed) start
     = if count self =? 0 then rev (firstn (S k') listed)
       else firstn (Z.to_nat (count self)) (rev (firstn (S k') listed)).
Proof.
  intros Hl Hs Ha Hn Hk Hc self' start.
  pose proof (aligned_latest st listed (S k') Ha Hn Hk) as (r & Hr & _ & Hi).
  assert (Hne: directed Down listed <> []).
  { cbn. intros E. apply (f_equal (@List.length string)) in E.
    rewrite length_rev in E. simpl in E. lia. }
  assert (Hst: starts (directed Down listed) Down (latest_row st) start)
    by (rewrite Hr; now constructor).
  split.
  - exact (perform_migrations_loop self Down st files listed _ Hl Hs Hne Hst).
  - rewrite window_nonneg by (cbn; unfold start, Py.len; lia).
    cbn [count self' set_direction]. unfold start.
    replace (Z.to_nat (Py.len listed - Z.of_nat (S k')))
      with (List.length listed - S k')%nat by (unfold Py.len; lia).
    rewrite skipn_rev.
    replace (List.length listed - (List.length listed - S k'))%nat
      with (S k') by lia.
    reflexivity.
Qed.

(** A [down] run over a catalog in string order, on a ledger that holds its
    first [k] names, when the store takes the [DELETE]. *)
Lemma down_retreat self st (files listed : list string) (k : nat) :
  (k <> 0%nat -> bounded_delete = true) ->
  listdir (folder self ++ "/" ++ "migrations") = Some files ->
  Py.sorted (collect files) ordinal = Some listed ->
  ascending listed ->
  names st = firstn k listed ->
  (k <= List.length listed)%nat ->
  0 <= count self ->
  (forall n, In n listed -> unit_ready import_module self Down n) ->
  exists (b : bool) st' (tr : list event),
    _perform_migrations colored listdir import_module bounded_delete self Down st
    = (Ok b, st', tr)
    /\ names st'
       = firstn (if count self =? 0 then 0
                 else k - Z.to_nat (count self)) listed.
Proof.
  intros Hacc Hl Hs Ha Hn Hk Hc Hready.
  pose proof (ascending_NoDup _ Ha) as Hno.
  destruct k as [|k'].
  { (* nothing recorded: the run changes nothing *)
    pose proof (aligned_latest st listed 0 Ha Hn Hk) as Hlat.
    assert (Hnil: names st = firstn (if count self =? 0 then 0
                                     else 0 - Z.to_nat (count self)) listed)
      by (rewrite Hn; now destruct (count self =? 0)).
    destruct listed as [|f fs] eqn:El.
    - exists true, st, []. rewrite perform_migrations_eq, Hl, Hs.
      split; [reflexivity|exact Hnil].
    - eexists. exists st. eexists. split; [|exact Hnil].
      apply (perform_migrations_blocked_down self st files (f :: fs) Hl Hs);
        [discriminate|exact Hlat]. }
  destruct (down_window self st files listed k' Hl Hs Ha Hn Hk Hc)
    as [Hrun Hw].
  specialize (Hacc (Nat.neq_succ_0 k')).
  rewrite Hrun. set (k := S k') in *.
  set (self' := set_direction self Down) in *.
  set (L := firstn k listed) in *.
  assert (HL: List.length L = k) by (unfold L; rewrite length_firstn; lia).
  set (w := window_of self' (rev listed) (Py.len listed - Z.of_nat k)) in *.
  set (base := firstn (if count self =? 0 then 0%nat
                       else (k - Z.to_nat (count self))%nat) listed).
  assert (Hdec: L = (base ++ rev w)%list).
  { unfold base. rewrite Hw. destruct (count self =? 0).
    - cbn. now rewrite rev_involutive.
    - rewrite firstn_rev, rev_involutive, HL.
      replace (firstn (k - Z.to_nat (count self)) listed)
        with (firstn (k - Z.to_nat (count self)) L).
      + symmetry. apply firstn_skipn.
      + unfold L. rewrite firstn_firstn. f_equal. lia. }
  destruct (for_each_down_recorded self' w base st eq_refl Hacc)
    as (st' & tr & E & Hnames).
  { rewrite <- Hdec. exact Hn. }
  { rewrite <- Hdec. now apply NoDup_firstn. }
  { intros n Hin. apply Hready. apply (In_firstn n k).
    fold L. rewrite Hdec. apply in_or_app. right. now apply -> in_rev. }
  unfold w in E. rewrite (loop_from_ok _ _ _ _ _ _ E).
  exists true, st'. eexists. split; [reflexivity|exact Hnames].
Qed.

(** The same run when the store does not take the [DELETE]: it raises at
    the latest unit, once its [down] was called, and keeps every row. *)
Lemma down_rejected self st (files listed : list string) (k' : nat) :
  bounded_delete = false ->
  listdir (folder self ++ "/" ++ "migrations") = Some files ->
  Py.sorted (collect files) ordinal = Some listed ->
  ascending listed ->
  names st = firstn (S k') listed ->
  (S k' <= List.length listed)%nat ->
  0 <= count self ->
  (forall n, In n listed -> unit_ready import_module self Down n) ->
  exists (latest : string) st' (tr : list event),
    nth_error listed k' = Some latest
    /\ _perform_migrations colored listdir import_module bounded_delete self
         Down st
       = (Raise DatabaseError, st', tr)
    /\ table st' = table st
    /\ attempted tr = [latest]
    /\ called tr = if fake self then [] else [(module_of self latest, "down")].
Proof.
  intros Hb Hl Hs Ha Hn Hk Hc Hready.
  destruct (down_window self st files listed k' Hl Hs Ha Hn Hk Hc)
    as [Hrun Hw].
  destruct (firstn_last k' listed Hk) as [x [Hf Hsplit]].
  assert (Hx: nth_error listed k' = Some x).
  { rewrite Hsplit at 1. rewrite nth_error_app2 by (rewrite length_firstn; lia).
    rewrite length_firstn.
    replace (k' - Nat.min k' (List.length listed))%nat with 0%nat by lia.
    reflexivity. }
  assert (Hwx: exists rest,
             window_of (set_direction self Down) (rev listed)
               (Py.len listed - Z.of_nat (S k')) = x :: rest).
  { rewrite Hw, Hf, rev_app_distr. cbn [rev app].
    destruct (Z.eqb_spec (count self) 0); [eexists; reflexivity|].
    destruct (Z.to_nat (count self)) as [|c] eqn:Ec; [lia|].
    eexists. reflexivity. }
  destruct Hwx as [rest Hwx].
  destruct (single_rejected (set_direction self Down) x st eq_refl Hb)
    as (st' & tr & E & Ht & Hat & Hcl).
  { apply has_row_names. rewrite Hn, Hf. apply in_or_app. right. now left. }
  { apply Hready. eapply nth_error_In. exact Hx. }
  exists x, st'. eexists. split; [exact Hx|].
  rewrite Hrun. unfold loop_from. rewrite Hwx, for_each_cons, E.
  unfold after_loop. split; [reflexivity|]. split; [exact Ht|].
  change (Fetched SelectLatest :: notice colored (set_direction self Down)
            (x :: rest) ++ tr)%list
    with ((Fetched SelectLatest :: notice colored (set_direction self Down)
             (x :: rest)) ++ tr)%list.
  split.
  - now rewrite attempted_app, notice_attempted.
  - assert (Hnc: called (Fetched SelectLatest
                         :: notice colored (set_direction self Down)
                              (x :: rest)) = []).
    { unfold notice. now destruct (count _ >? _). }
    now rewrite called_app, Hnc.
Qed.

(** ** Negative counts *)




(** X8: going up moves the ledger forward along the catalog.  Over a
    catalog whose names are in string order, on a ledger that holds its
    first [k] names, an [up] run with a count of 0 or more, faked or with
    units that import and return, returns without raising and leaves the
    ledger holding the first [k + count] names (all of them when the count
    is 0 or reaches past the end), each new row after the rows there were. *)
Theorem up_run_advances self st (files listed : list string) (k : nat) :
  listdir (folder self ++ "/" ++ "migrations") = Some files ->
  Py.sorted (collect files) ordinal = Some listed ->
  ascending listed ->
  names st = firstn k listed ->
  (k <= List.length listed)%nat ->
  0 <= count self ->
  (forall n, In n listed -> unit_ready import_module self Up n) ->
  exists (b : bool) st' (tr : list event),
    _perform_migrations colored listdir import_module bounded_delete self Up st
    = (Ok b, st', tr)
    /\ names st'
       = firstn (if count self =? 0 then List.length listed
                 else k + Z.to_nat (count self)) listed.
Proof.
  intros Hl Hs Ha Hn Hk Hc Hready.
  destruct (up_advance self st files listed k Hl Hs Ha Hn Hk Hc Hready)
    as (b & st' & tr & Hrun & Hnames).
  exists b, st', tr. split; [exact Hrun|exact Hnames].
Qed.

(** X9: going down moves the ledger back along the catalog when the store
    takes the [DELETE ... LIMIT 1] of line 102, and not at all when it does
    not.  Over a catalog whose names are in string order, on a ledger that
    holds its first [k] names, a [down] run with a count of 0 or more, faked
    or with units that import and return: if the store takes the statement,
    or no name is recorded, the run returns without raising and leaves the
    ledger holding the first [k - count] names (none when the count is 0 or
    exceeds [k]); if the store rejects the statement and a name is
    recorded, the run raises at the first unit it handles, the latest one,
    after calling its [down] unless the run is faked, and every row
    stays. *)
Theorem down_run_retreats self st (files listed : list string) (k : nat) :
  listdir (folder self ++ "/" ++ "migrations") = Some files ->
  Py.sorted (collect files) ordinal = Some listed ->
  ascending listed ->
  names st = firstn k listed ->
  (k <= List.length listed)%nat ->
  0 <= count self ->
  (forall n, In n listed -> unit_ready import_module self Down n) ->
  exists (r : result bool) st' (tr : list event),
    _perform_migrations colored listdir import_module bounded_delete self Down st
    = (r, st', tr)
    /\ if bounded_delete || (k =? 0)%nat
       then (exists b : bool, r = Ok b)
            /\ names st'
               = firstn (if count self =? 0 then 0
                         else k - Z.to_nat (count self)) listed
       else r = Raise DatabaseError
            /\ table st' = table st
            /\ exists latest : string,
                 nth_error listed (k - 1) = Some latest
                 /\ attempted tr = [latest]
                 /\ called tr
                    = if fake self then []
                      else [(module_of self latest, "down")].
Proof.
  intros Hl Hs Ha Hn Hk Hc Hready.
  destruct (bounded_delete || (k =? 0)%nat) eqn:Hb.
  - assert (Hacc: k <> 0%nat -> bounded_delete = true).
    { intros Hk0. apply orb_true_iff in Hb as [Hb|Hb]; [exact Hb|].
      apply Nat.eqb_eq in Hb. contradiction. }
    destruct (down_retreat self st files listed k Hacc Hl Hs Ha Hn Hk Hc Hready)
      as (b & st' & tr & Hrun & Hnames).
    exists (Ok b), st', tr. split; [exact Hrun|].
    split; [now exists b|exact Hnames].
  - apply orb_false_iff in Hb as [Hb Hk0].
    destruct k as [|k']; [discriminate|].
    destruct (down_rejected self st files listed k' Hb Hl Hs Ha Hn Hk Hc Hready)
      as (latest & st' & tr & Hx & Hrun & Ht & Hat & Hcl).
    exists (Raise DatabaseError), st', tr. split; [exact Hrun|].
    split; [reflexivity|]. split; [exact Ht|].
    exists latest. cbn [Nat.sub]. rewrite Nat.sub_0_r.
    split; [exact Hx|]. split; [exact Hat|exact Hcl].
Qed.

End Facts.

(** ** Runs of the small project *)

Lemma retreive_filenames_sorted_stable_demo :
  Demo.dir Demo.three "arnold_config/migrations" = Some Demo.three
  /\ (exists names,
        _retreive_filenames (Demo.dir Demo.three) (Demo.args 0 false) Demo.fresh
        = (Ok names, Demo.fresh, [])).
Proof.
  split; [reflexivity|].
  apply (retreive_filenames_sorted_stable (Demo.dir Demo.three)
           (Demo.args 0 false) Demo.fresh Demo.three eq_refl).
  repeat constructor; discriminate.
Defined.

(** Two names of ordinal 1 come out as listed, the greater string first. *)
Lemma ties_keep_listing_order :
  _retreive_filenames (Demo.dir ["1_b.py"; "1_a.py"]) (Demo.args 0 false)
    Demo.fresh
  = (Ok ["1_b"; "1_a"], Demo.fresh, [])
  /\ ~ StronglySorted spec_before ["1_b"; "1_a"].
Proof.
  split; [reflexivity|].
  intros H. inversion H as [|? ? _ Hf]; subst.
  inversion Hf as [|? ? Hb _]; subst.
  unfold spec_before in Hb. simpl in Hb.
  destruct Hb as [Hb|[_ Hb]]; [lia|discriminate].
Qed.

Lemma malformed_name_aborts_demo :
  (Demo.dir ["1_a.py"; "x_1.py"] "arnold_config/migrations"
   = Some ["1_a.py"; "x_1.py"]
   /\ In "x_1.py" ["1_a.py"; "x_1.py"]
   /\ "x_1" <> "__init__"
   /\ Py.int (Py.first (Py.split "_" "x_1")) = None)
  /\ _perform_migrations Demo.plain (Demo.dir ["1_a.py"; "x_1.py"])
       Demo.complete false (Demo.args 0 false) Up Demo.fresh
     = (Raise ValueError, Demo.fresh, []).
Proof.
  assert (H1: In "x_1.py" ["1_a.py"; "x_1.py"]) by (simpl; auto).
  assert (H2: "x_1" <> "__init__") by discriminate.
  split; [repeat split; auto|].
  apply (malformed_name_aborts Demo.plain (Demo.dir ["1_a.py"; "x_1.py"])
           Demo.complete false (Demo.args 0 false) Up Demo.fresh
           ["1_a.py"; "x_1.py"] "x_1" eq_refl H1 H2 eq_refl).
Defined.

(** [one_b] has no number before its underscore.  Listing it raises
    [ValueError], the error of Python's [int]: the class declares no error
    of its own for names, and the exception it does import,
    [DirectionNotFoundException], is not the one raised.  A run going down
    over a ledger that records [1_a] raises with it before the ledger is
    read. *)
Lemma malformed_name_raises_value_error :
  Py.int (Py.first (Py.split "_" "one_b")) = None
  /\ _retreive_filenames (Demo.dir ["1_a.py"; "one_b.py"]) (Demo.args 0 false)
       (Demo.store ["1_a"])
     = (Raise ValueError, Demo.store ["1_a"], [])
  /\ _perform_migrations Demo.plain (Demo.dir ["1_a.py"; "one_b.py"])
       Demo.complete false (Demo.args 0 false) Down (Demo.store ["1_a"])
     = (Raise ValueError, Demo.store ["1_a"], [])
  /\ fst (fst (_perform_migrations Demo.plain
                 (Demo.dir ["1_a.py"; "one_b.py"]) Demo.complete false
                 (Demo.args 0 false) Down (Demo.store ["1_a"])))
     <> Raise DirectionNotFoundException.
Proof.
  split; [reflexivity|]. split; [reflexivity|]. split; [reflexivity|].
  discriminate.
Qed.

Ltac conjuncts :=
  repeat match goal with |- _ /\ _ => split end;
  try reflexivity; try assumption.

Lemma three_NoDup : NoDup Demo.three.
Proof.
  repeat (constructor; [simpl; intuition discriminate|]). constructor.
Defined.

Lemma three_sorted :
  Py.sorted (collect Demo.three) ordinal
  = Some ["1_create_users"; "2_add_email"; "3_add_index"].
Proof. reflexivity. Defined.

Lemma complete_ready (self : Terminator) (d : Direction) (n : string) :
  unit_ready Demo.complete self d n.
Proof.
  right. exists Demo.both, Demo.noop.
  split; [reflexivity|]. split; [now destruct d|reflexivity].
Defined.

(** The example of the specification: count 2 over three units, nothing
    recorded yet. *)
Lemma window_is_slice_demo :
  (Demo.dir Demo.three "arnold_config/migrations" = Some Demo.three
   /\ directed Up ["1_create_users"; "2_add_email"; "3_add_index"] <> []
   /\ starts ["1_create_users"; "2_add_email"; "3_add_index"] Up
        (latest_row Demo.fresh) 0)
  /\ _perform_migrations Demo.plain (Demo.dir Demo.three) Demo.complete false
       (Demo.args 2 false) Up Demo.fresh
     = after_loop [Fetched SelectLatest]
         (for_each ["1_create_users"; "2_add_email"]
            (_perform_single_migration Demo.plain Demo.complete false
               (set_direction (Demo.args 2 false) Up))
            Demo.fresh).
Proof.
  assert (H1: directed Up ["1_create_users"; "2_add_email"; "3_add_index"] <> [])
    by discriminate.
  assert (H2: starts ["1_create_users"; "2_add_email"; "3_add_index"] Up
                (latest_row Demo.fresh) 0) by constructor.
  split; [conjuncts|].
  exact (proj1 (window_is_slice Demo.plain (Demo.dir Demo.three) Demo.complete false
                  (Demo.args 2 false) Up Demo.fresh Demo.three
                  ["1_create_users"; "2_add_email"; "3_add_index"] 0
                  eq_refl three_sorted H1 H2)).
Defined.

(** Going down with nothing recorded handles no unit, though the slice from
    0 is the whole reversed list. *)
Lemma down_with_no_latest_runs_nothing :
  _perform_migrations Demo.plain (Demo.dir Demo.three) Demo.complete false
    (Demo.args 0 false) Down Demo.fresh
  = (Ok false, Demo.fresh,
     [Fetched SelectLatest; Printed "Nothing to go down."])
  /\ attempted [Fetched SelectLatest; Printed "Nothing to go down."] = []
  /\ claimed_window (Demo.args 0 false) Down
       ["3_add_index"; "2_add_email"; "1_create_users"]
       (latest_row Demo.fresh)
     = Some ["3_add_index"; "2_add_email"; "1_create_users"].
Proof. conjuncts. Qed.

Lemma up_twice_changes_nothing_demo :
  (Demo.dir Demo.three "arnold_config/migrations" = Some Demo.three
   /\ NoDup Demo.three
   /\ fst (_perform_migrations Demo.plain (Demo.dir Demo.three) Demo.complete false
             (Demo.args 0 false) Up Demo.fresh)
      = (Ok true,
         Demo.store ["1_create_users"; "2_add_email"; "3_add_index"]))
  /\ exists (b2 : bool) (tr2 : list event),
       _perform_migrations Demo.plain (Demo.dir Demo.three) Demo.complete false
         (Demo.args 0 false) Up
         (Demo.store ["1_create_users"; "2_add_email"; "3_add_index"])
       = (Ok b2, Demo.store ["1_create_users"; "2_add_email"; "3_add_index"],
          tr2)
       /\ quiet tr2
       /\ forall n, In n (attempted tr2) ->
            has_row n
              (Demo.store ["1_create_users"; "2_add_email"; "3_add_index"])
            = true.
Proof.
  split; [conjuncts; exact three_NoDup|].
  exact (up_twice_changes_nothing Demo.plain (Demo.dir Demo.three)
           Demo.complete false (Demo.args 0 false) Demo.fresh Demo.three true
           (Demo.store ["1_create_users"; "2_add_email"; "3_add_index"])
           (snd (_perform_migrations Demo.plain (Demo.dir Demo.three)
                   Demo.complete false (Demo.args 0 false) Up Demo.fresh))
           eq_refl eq_refl three_NoDup eq_refl).
Defined.

(** With count 1 the second run applies the next unit: it calls its [up]
    and inserts its row. *)
Lemma up_twice_with_count_applies_more :
  fst (_perform_migrations Demo.plain (Demo.dir Demo.three) Demo.complete false
         (Demo.args 1 false) Up Demo.fresh)
  = (Ok true, Demo.store ["1_create_users"])
  /\ _perform_migrations Demo.plain (Demo.dir Demo.three) Demo.complete false
       (Demo.args 1 false) Up (Demo.store ["1_create_users"])
     = (Ok true, Demo.store ["1_create_users"; "2_add_email"],
        [Fetched SelectLatest;
         Fetched (SelectIdWhereMigration "2_add_email");
         Printed "Migration 2_add_email going up";
         Printed "Importing arnold_config.migrations.2_add_email";
         Imported "arnold_config.migrations.2_add_email";
         Called "arnold_config.migrations.2_add_email" "up";
         Executed (InsertMigration "2_add_email");
         Printed "Migration 2_add_email went up"])
  /\ table (Demo.store ["1_create_users"; "2_add_email"])
     <> table (Demo.store ["1_create_users"]).
Proof. conjuncts. discriminate. Qed.

Lemma boundary_runs_change_nothing_demo :
  (Demo.dir Demo.three "arnold_config/migrations" = Some Demo.three
   /\ NoDup Demo.three
   /\ ["1_create_users"; "2_add_email"; "3_add_index"] <> []
   /\ table Demo.fresh = []
   /\ latest_row (Demo.store ["1_create_users"; "2_add_email"; "3_add_index"])
      = Some (mkRow 3 "3_add_index" 3))
  /\ _perform_migrations Demo.plain (Demo.dir Demo.three) Demo.complete false
       (Demo.args 0 false) Down Demo.fresh
     = (Ok false, Demo.fresh,
        [Fetched SelectLatest; Printed "Nothing to go down."])
  /\ _perform_migrations Demo.plain (Demo.dir Demo.three) Demo.complete false
       (Demo.args 0 false) Up
       (Demo.store ["1_create_users"; "2_add_email"; "3_add_index"])
     = (Ok false, Demo.store ["1_create_users"; "2_add_email"; "3_add_index"],
        [Fetched SelectLatest; Printed "Nothing to go up."]).
Proof.
  assert (Hne: ["1_create_users"; "2_add_email"; "3_add_index"] <> [])
    by discriminate.
  split; [conjuncts; exact three_NoDup|].
  split.
  - exact (proj1 (boundary_runs_change_nothing Demo.plain (Demo.dir Demo.three)
                    Demo.complete false (Demo.args 0 false) Demo.fresh Demo.three
                    ["1_create_users"; "2_add_email"; "3_add_index"]
                    eq_refl three_NoDup three_sorted Hne) eq_refl).
  - exact (proj2 (boundary_runs_change_nothing Demo.plain (Demo.dir Demo.three)
                    Demo.complete false (Demo.args 0 false)
                    (Demo.store ["1_create_users"; "2_add_email"; "3_add_index"])
                    Demo.three
                    ["1_create_users"; "2_add_email"; "3_add_index"]
                    eq_refl three_NoDup three_sorted Hne)
             (mkRow 3 "3_add_index" 3) ["1_create_users"; "2_add_email"]
             eq_refl eq_refl).
Defined.

(** Over an empty catalog a [down] run with nothing recorded returns [True]
    and prints nothing. *)
Lemma down_over_empty_catalog_is_silent :
  table Demo.fresh = []
  /\ _perform_migrations Demo.plain (Demo.dir []) Demo.complete false
       (Demo.args 0 false) Down Demo.fresh
     = (Ok true, Demo.fresh, []).
Proof. split; reflexivity. Qed.

Lemma unlisted_latest_raises_demo :
  (Demo.dir Demo.three "arnold_config/migrations" = Some Demo.three
   /\ ["1_create_users"; "2_add_email"; "3_add_index"] <> []
   /\ latest_row (Demo.store ["7_dropped"]) = Some (mkRow 1 "7_dropped" 1)
   /\ ~ In "7_dropped" ["1_create_users"; "2_add_email"; "3_add_index"])
  /\ _perform_migrations Demo.plain (Demo.dir Demo.three) Demo.complete false
       (Demo.args 0 false) Up (Demo.store ["7_dropped"])
     = (Raise ValueError, Demo.store ["7_dropped"], [Fetched SelectLatest]).
Proof.
  assert (Hne: ["1_create_users"; "2_add_email"; "3_add_index"] <> [])
    by discriminate.
  assert (Hin: ~ In "7_dropped" ["1_create_users"; "2_add_email"; "3_add_index"])
    by (simpl; intuition discriminate).
  split; [conjuncts|].
  exact (unlisted_latest_raises Demo.plain (Demo.dir Demo.three) Demo.complete false
           (Demo.args 0 false) Up (Demo.store ["7_dropped"]) Demo.three
           ["1_create_users"; "2_add_email"; "3_add_index"]
           (mkRow 1 "7_dropped" 1) eq_refl three_sorted Hne eq_refl Hin).
Defined.

(** Over an empty catalog the latest row is not looked up: the run returns
    [True] though the ledger names a unit that is not listed. *)
Lemma unlisted_latest_over_empty_catalog :
  latest_row (Demo.store ["1_create_users"]) = Some (mkRow 1 "1_create_users" 1)
  /\ Py.sorted (collect []) ordinal = Some []
  /\ ~ In "1_create_users" []
  /\ _perform_migrations Demo.plain (Demo.dir []) Demo.complete false
       (Demo.args 0 false) Up (Demo.store ["1_create_users"])
     = (Ok true, Demo.store ["1_create_users"], []).
Proof. conjuncts. intros []. Qed.


(** [2_add_email] has no [up]: a real run stops at it with the first unit
    recorded and the third never looked at. *)
Lemma missing_direction_aborts_demo :
  (fake (Demo.args 0 false) = false
   /\ Demo.dir Demo.three "arnold_config/migrations" = Some Demo.three
   /\ starts ["1_create_users"; "2_add_email"; "3_add_index"] Up
        (latest_row Demo.fresh) 0
   /\ fst (for_each ["1_create_users"]
             (_perform_single_migration Demo.plain Demo.modules false
                (set_direction (Demo.args 0 false) Up))
             Demo.fresh)
      = (Ok tt, Demo.store ["1_create_users"])
   /\ acted Up "2_add_email" (Demo.store ["1_create_users"]) = true
   /\ Demo.modules (module_of (Demo.args 0 false) "2_add_email")
      = Some Demo.only_down
   /\ getattr Demo.only_down Up = None)
  /\ _perform_migrations Demo.plain (Demo.dir Demo.three) Demo.modules false
       (Demo.args 0 false) Up Demo.fresh
     = (Raise DirectionNotFoundException, Demo.store ["1_create_users"],
        [Fetched SelectLatest;
         Fetched (SelectIdWhereMigration "1_create_users");
         Printed "Migration 1_create_users going up";
         Printed "Importing arnold_config.migrations.1_create_users";
         Imported "arnold_config.migrations.1_create_users";
         Called "arnold_config.migrations.1_create_users" "up";
         Executed (InsertMigration "1_create_users");
         Printed "Migration 1_create_users went up";
         Fetched (SelectIdWhereMigration "2_add_email");
         Printed "Migration 2_add_email going up";
         Printed "Importing arnold_config.migrations.2_add_email";
         Imported "arnold_config.migrations.2_add_email"]).
Proof.
  assert (H1: directed Up ["1_create_users"; "2_add_email"; "3_add_index"] <> [])
    by discriminate.
  assert (H2: starts ["1_create_users"; "2_add_email"; "3_add_index"] Up
                (latest_row Demo.fresh) 0) by constructor.
  split; [conjuncts|].
  exact (proj1 (missing_direction_aborts Demo.plain (Demo.dir Demo.three)
                  Demo.modules false (Demo.args 0 false) Up Demo.fresh Demo.three
                  ["1_create_users"; "2_add_email"; "3_add_index"] 0
                  ["1_create_users"] ["3_add_index"] "2_add_email"
                  (Demo.store ["1_create_users"])
                  (snd (for_each ["1_create_users"]
                          (_perform_single_migration Demo.plain Demo.modules false
                             (set_direction (Demo.args 0 false) Up))
                          Demo.fresh))
                  Demo.only_down
                  eq_refl eq_refl three_sorted H1 H2 eq_refl eq_refl eq_refl
                  eq_refl eq_refl)).
Defined.

(** The same project in a faked run: nothing is imported, so the unit
    without [up] raises nothing and gets its row like the others. *)
Lemma faked_run_never_misses_a_direction :
  fake (Demo.args 0 true) = true
  /\ Demo.modules "arnold_config.migrations.2_add_email" = Some Demo.only_down
  /\ getattr Demo.only_down Up = None
  /\ _perform_migrations Demo.plain (Demo.dir Demo.three) Demo.modules false
       (Demo.args 0 true) Up Demo.fresh
     = (Ok true, Demo.store ["1_create_users"; "2_add_email"; "3_add_index"],
        [Fetched SelectLatest;
         Fetched (SelectIdWhereMigration "1_create_users");
         Printed "Migration 1_create_users going up";
         Executed (InsertMigration "1_create_users");
         Printed "Faking 1_create_users";
         Printed "Migration 1_create_users went up";
         Fetched (SelectIdWhereMigration "2_add_email");
         Printed "Migration 2_add_email going up";
         Executed (InsertMigration "2_add_email");
         Printed "Faking 2_add_email";
         Printed "Migration 2_add_email went up";
         Fetched (SelectIdWhereMigration "3_add_index");
         Printed "Migration 3_add_index going up";
         Executed (InsertMigration "3_add_index");
         Printed "Faking 3_add_index";
         Printed "Migration 3_add_index went up"]).
Proof. conjuncts. Qed.

Lemma fake_up_records_without_running_demo :
  (fake (mkTerminator true 0 "arnold_config" (Some Up)) = true
   /\ has_row "1_create_users" Demo.fresh = false)
  /\ _perform_single_migration Demo.plain Demo.complete false
       (mkTerminator true 0 "arnold_config" (Some Up)) "1_create_users"
       Demo.fresh
     = (Ok true, Demo.store ["1_create_users"],
        [Fetched (SelectIdWhereMigration "1_create_users");
         Printed "Migration 1_create_users going up";
         Executed (InsertMigration "1_create_users");
         Printed "Faking 1_create_users";
         Printed "Migration 1_create_users went up"]).
Proof.
  split; [conjuncts|].
  exact (proj1 (fake_up_records_without_running Demo.plain Demo.complete false
                  (mkTerminator true 0 "arnold_config" (Some Up))
                  "1_create_users" Demo.fresh eq_refl eq_refl eq_refl)).
Defined.

(** A faked [up] run whose window holds a unit that already has its row:
    ["9_x"] is the greatest name, so the window is ["10_y"], which is
    skipped; no row is inserted. *)
Lemma faked_run_skips_recorded_unit :
  fake (Demo.args 0 true) = true
  /\ _perform_migrations Demo.plain (Demo.dir ["9_x.py"; "10_y.py"])
       Demo.complete false (Demo.args 0 true) Up (Demo.store ["9_x"; "10_y"])
     = (Ok true, Demo.store ["9_x"; "10_y"],
        [Fetched SelectLatest;
         Fetched (SelectIdWhereMigration "10_y");
         Printed "Migration 10_y already exists, skipping"]).
Proof. conjuncts. Qed.

(** ** Runs of the small project, continued *)

Lemma three_ascending :
  ascending ["1_create_users"; "2_add_email"; "3_add_index"].
Proof. repeat constructor. Defined.

Lemma run_keeps_one_row_per_name_demo :
  (NoDup (names (Demo.store ["1_create_users"]))
   /\ fst (_perform_migrations Demo.plain (Demo.dir Demo.three) Demo.complete false
             (Demo.args 1 false) Up (Demo.store ["1_create_users"]))
      = (Ok true, Demo.store ["1_create_users"; "2_add_email"]))
  /\ NoDup (names (Demo.store ["1_create_users"; "2_add_email"])).
Proof.
  assert (H: NoDup (names (Demo.store ["1_create_users"])))
    by (repeat constructor; simpl; tauto).
  split; [conjuncts|].
  exact (run_keeps_one_row_per_name Demo.plain (Demo.dir Demo.three)
           Demo.complete false (Demo.args 1 false) Up (Demo.store ["1_create_users"])
           (Ok true) (Demo.store ["1_create_users"; "2_add_email"])
           (snd (_perform_migrations Demo.plain (Demo.dir Demo.three)
                   Demo.complete false (Demo.args 1 false) Up
                   (Demo.store ["1_create_users"])))
           H eq_refl).
Defined.

Lemma run_mutates_one_way_demo :
  fst (_perform_migrations Demo.plain (Demo.dir Demo.three) Demo.complete false
         (Demo.args 1 false) Up (Demo.store ["1_create_users"]))
  = (Ok true, Demo.store ["1_create_users"; "2_add_email"])
  /\ exists added : list Row,
       table (Demo.store ["1_create_users"; "2_add_email"])
       = (table (Demo.store ["1_create_users"]) ++ added)%list
       /\ serial (Demo.store ["1_create_users"; "2_add_email"])
          = serial (Demo.store ["1_create_users"]) + Py.len added
       /\ Forall
            (fun r => has_row (migration r) (Demo.store ["1_create_users"])
                      = false) added.
Proof.
  split; [reflexivity|].
  exact (run_mutates_one_way Demo.plain (Demo.dir Demo.three)
           Demo.complete false (Demo.args 1 false) Up (Demo.store ["1_create_users"])
           (Ok true) (Demo.store ["1_create_users"; "2_add_email"])
           (snd (_perform_migrations Demo.plain (Demo.dir Demo.three)
                   Demo.complete false (Demo.args 1 false) Up
                   (Demo.store ["1_create_users"])))
           eq_refl).
Defined.

(** ["9_x"] is the latest row though ["10_y"] is listed after it: going
    down, ["10_y"] keeps its row. *)
Lemma run_stays_on_its_side_demo :
  (Demo.dir ["9_x.py"; "10_y.py"] "arnold_config/migrations"
   = Some ["9_x.py"; "10_y.py"]
   /\ NoDup ["9_x.py"; "10_y.py"]
   /\ Py.sorted (collect ["9_x.py"; "10_y.py"]) ordinal = Some ["9_x"; "10_y"]
   /\ latest_row (Demo.store ["9_x"; "10_y"]) = Some (mkRow 1 "9_x" 1)
   /\ Py.index "9_x" ["9_x"; "10_y"] = Some 0
   /\ ~ In "10_y" (reach Down ["9_x"; "10_y"] 0))
  /\ has_row "10_y"
       (snd (fst (_perform_migrations Demo.plain
                    (Demo.dir ["9_x.py"; "10_y.py"]) Demo.complete false
                    (Demo.args 0 false) Down (Demo.store ["9_x"; "10_y"]))))
     = has_row "10_y" (Demo.store ["9_x"; "10_y"]).
Proof.
  assert (Hnd: NoDup ["9_x.py"; "10_y.py"])
    by (repeat (constructor; [simpl; intuition discriminate|]); constructor).
  assert (Hout: ~ In "10_y" (reach Down ["9_x"; "10_y"] 0))
    by (simpl; intuition discriminate).
  split; [conjuncts|].
  exact (run_stays_on_its_side Demo.plain (Demo.dir ["9_x.py"; "10_y.py"])
           Demo.complete false (Demo.args 0 false) Down (Demo.store ["9_x"; "10_y"])
           ["9_x.py"; "10_y.py"] ["9_x"; "10_y"] (mkRow 1 "9_x" 1) 0
           _ _ _ eq_refl Hnd eq_refl eq_refl eq_refl eq_refl "10_y" Hout).
Defined.

(** The [up] of [2_add_email] raises: the first unit keeps its row, the
    second gets none. *)
Lemma failing_operation_aborts_demo :
  (fake (Demo.args 0 false) = false
   /\ Demo.dir Demo.three "arnold_config/migrations" = Some Demo.three
   /\ starts ["1_create_users"; "2_add_email"; "3_add_index"] Up
        (latest_row Demo.fresh) 0
   /\ fst (for_each ["1_create_users"]
             (_perform_single_migration Demo.plain Demo.faulty false
                (set_direction (Demo.args 0 false) Up))
             Demo.fresh)
      = (Ok tt, Demo.store ["1_create_users"])
   /\ acted Up "2_add_email" (Demo.store ["1_create_users"]) = true
   /\ Demo.faulty (module_of (Demo.args 0 false) "2_add_email")
      = Some Demo.breaks_up
   /\ getattr Demo.breaks_up Up = Some Demo.failing
   /\ Demo.failing tt = (Raise UnitException, tt))
  /\ _perform_migrations Demo.plain (Demo.dir Demo.three) Demo.faulty false
       (Demo.args 0 false) Up Demo.fresh
     = (Raise UnitException, Demo.store ["1_create_users"],
        [Fetched SelectLatest;
         Fetched (SelectIdWhereMigration "1_create_users");
         Printed "Migration 1_create_users going up";
         Printed "Importing arnold_config.migrations.1_create_users";
         Imported "arnold_config.migrations.1_create_users";
         Called "arnold_config.migrations.1_create_users" "up";
         Executed (InsertMigration "1_create_users");
         Printed "Migration 1_create_users went up";
         Fetched (SelectIdWhereMigration "2_add_email");
         Printed "Migration 2_add_email going up";
         Printed "Importing arnold_config.migrations.2_add_email";
         Imported "arnold_config.migrations.2_add_email";
         Called "arnold_config.migrations.2_add_email" "up"]).
Proof.
  assert (H1: directed Up ["1_create_users"; "2_add_email"; "3_add_index"] <> [])
    by discriminate.
  assert (H2: starts ["1_create_users"; "2_add_email"; "3_add_index"] Up
                (latest_row Demo.fresh) 0) by constructor.
  split; [conjuncts|].
  exact (proj1 (failing_operation_aborts Demo.plain (Demo.dir Demo.three)
                  Demo.faulty false (Demo.args 0 false) Up Demo.fresh Demo.three
                  ["1_create_users"; "2_add_email"; "3_add_index"] 0
                  ["1_create_users"] ["3_add_index"] "2_add_email"
                  (Demo.store ["1_create_users"])
                  (snd (for_each ["1_create_users"]
                          (_perform_single_migration Demo.plain Demo.faulty false
                             (set_direction (Demo.args 0 false) Up))
                          Demo.fresh))
                  Demo.breaks_up Demo.failing UnitException tt
                  eq_refl eq_refl three_sorted H1 H2 eq_refl eq_refl eq_refl
                  eq_refl eq_refl eq_refl)).
Defined.

Lemma retreive_filenames_membership_demo :
  (Demo.dir Demo.three "arnold_config/migrations" = Some Demo.three
   /\ _retreive_filenames (Demo.dir Demo.three) (Demo.args 0 false) Demo.fresh
      = (Ok ["1_create_users"; "2_add_email"; "3_add_index"], Demo.fresh, []))
  /\ (forall base : string,
         In base ["1_create_users"; "2_add_email"; "3_add_index"]
         <-> In (base ++ ".py") Demo.three /\ base <> "__init__")
  /\ (NoDup Demo.three ->
      NoDup ["1_create_users"; "2_add_email"; "3_add_index"]).
Proof.
  split; [conjuncts|].
  exact (retreive_filenames_membership (Demo.dir Demo.three)
           (Demo.args 0 false) Demo.fresh Demo.three
           ["1_create_users"; "2_add_email"; "3_add_index"] Demo.fresh []
           eq_refl eq_refl).
Defined.

Lemma retreive_filenames_listing_order_demo :
  (Demo.dir Demo.three "arnold_config/migrations" = Some Demo.three
   /\ Demo.dir (rev Demo.three) "arnold_config/migrations"
      = Some (rev Demo.three)
   /\ Permutation Demo.three (rev Demo.three)
   /\ NoDup (map ordinal (collect Demo.three))
   /\ _retreive_filenames (Demo.dir Demo.three) (Demo.args 0 false) Demo.fresh
      = (Ok ["1_create_users"; "2_add_email"; "3_add_index"], Demo.fresh, []))
  /\ _retreive_filenames (Demo.dir (rev Demo.three)) (Demo.args 0 false)
       Demo.fresh
     = (Ok ["1_create_users"; "2_add_email"; "3_add_index"], Demo.fresh, []).
Proof.
  assert (Hp: Permutation Demo.three (rev Demo.three))
    by apply Permutation_rev.
  assert (Hn: NoDup (map ordinal (collect Demo.three)))
    by (repeat (constructor; [simpl; intuition discriminate|]); constructor).
  split; [conjuncts|].
  exact (retreive_filenames_listing_order (Demo.dir Demo.three)
           (Demo.dir (rev Demo.three)) (Demo.args 0 false) Demo.fresh
           Demo.three (rev Demo.three)
           ["1_create_users"; "2_add_email"; "3_add_index"]
           eq_refl eq_refl Hp Hn eq_refl).
Defined.

Lemma only_the_package_file (base : string) :
  In (base ++ ".py") ["__init__.py"; "README"; "notes.txt"] ->
  base = "__init__".
Proof.
  intros H.
  pose proof (rsplit_last_none "." base "py" eq_refl) as Hr.
  destruct H as [H|[H|[H|[]]]]; rewrite <- H in Hr; cbv in Hr;
    congruence.
Defined.

Lemma run_over_no_candidates_demo :
  Demo.dir ["__init__.py"; "README"; "notes.txt"] "arnold_config/migrations"
  = Some ["__init__.py"; "README"; "notes.txt"]
  /\ _perform_migrations Demo.plain
       (Demo.dir ["__init__.py"; "README"; "notes.txt"]) Demo.complete false
       (Demo.args 0 false) Down (Demo.store ["1_create_users"])
     = (Ok true, Demo.store ["1_create_users"], []).
Proof.
  split; [reflexivity|].
  exact (run_over_no_candidates Demo.plain
           (Demo.dir ["__init__.py"; "README"; "notes.txt"]) Demo.complete false
           (Demo.args 0 false) Down (Demo.store ["1_create_users"])
           ["__init__.py"; "README"; "notes.txt"] eq_refl
           only_the_package_file).
Defined.

(** The example of the specification: two units applied, then the rest. *)
Lemma up_run_advances_demo :
  (Demo.dir Demo.three "arnold_config/migrations" = Some Demo.three
   /\ ascending ["1_create_users"; "2_add_email"; "3_add_index"]
   /\ names Demo.fresh
      = firstn 0 ["1_create_users"; "2_add_email"; "3_add_index"]
   /\ 0 <= count (Demo.args 2 false))
  /\ exists (b : bool) (st' : Store unit) (tr : list event),
       _perform_migrations Demo.plain (Demo.dir Demo.three) Demo.complete false
         (Demo.args 2 false) Up Demo.fresh
       = (Ok b, st', tr)
       /\ names st' = ["1_create_users"; "2_add_email"].
Proof.
  assert (Hc: 0 <= count (Demo.args 2 false)) by (simpl; lia).
  assert (Hk: (0 <= List.length
                 ["1_create_users"; "2_add_email"; "3_add_index"])%nat)
    by (simpl; lia).
  split; [conjuncts; exact three_ascending|].
  exact (up_run_advances Demo.plain (Demo.dir Demo.three) Demo.complete false
           (Demo.args 2 false) Demo.fresh Demo.three
           ["1_create_users"; "2_add_email"; "3_add_index"] 0
           eq_refl three_sorted three_ascending eq_refl Hk Hc
           (fun n _ => complete_ready (Demo.args 2 false) Up n)).
Defined.

(** Going down by one from three recorded units: a store that rejects the
    [DELETE] keeps the three rows after [3_add_index] went down; a store
    that takes it is left with the first two. *)
Lemma down_run_retreats_demo :
  (Demo.dir Demo.three "arnold_config/migrations" = Some Demo.three
   /\ ascending ["1_create_users"; "2_add_email"; "3_add_index"]
   /\ names (Demo.store ["1_create_users"; "2_add_email"; "3_add_index"])
      = firstn 3 ["1_create_users"; "2_add_email"; "3_add_index"]
   /\ 0 <= count (Demo.args 1 false))
  /\ (exists (r : result bool) (st' : Store unit) (tr : list event),
        _perform_migrations Demo.plain (Demo.dir Demo.three) Demo.complete
          false (Demo.args 1 false) Down
          (Demo.store ["1_create_users"; "2_add_email"; "3_add_index"])
        = (r, st', tr)
        /\ r = Raise DatabaseError
        /\ table st'
           = table (Demo.store
                      ["1_create_users"; "2_add_email"; "3_add_index"])
        /\ exists latest : string,
             nth_error ["1_create_users"; "2_add_email"; "3_add_index"] 2
             = Some latest
             /\ attempted tr = [latest]
             /\ called tr = [(module_of (Demo.args 1 false) latest, "down")])
  /\ (exists (r : result bool) (st' : Store unit) (tr : list event),
        _perform_migrations Demo.plain (Demo.dir Demo.three) Demo.complete
          true (Demo.args 1 false) Down
          (Demo.store ["1_create_users"; "2_add_email"; "3_add_index"])
        = (r, st', tr)
        /\ (exists b : bool, r = Ok b)
        /\ names st' = ["1_create_users"; "2_add_email"]).
Proof.
  assert (Hc: 0 <= count (Demo.args 1 false)) by (simpl; lia).
  assert (Hk: (3 <= List.length
                 ["1_create_users"; "2_add_email"; "3_add_index"])%nat)
    by (simpl; lia).
  split; [conjuncts; exact three_ascending|]. split.
  - exact (down_run_retreats Demo.plain (Demo.dir Demo.three) Demo.complete
             false (Demo.args 1 false)
             (Demo.store ["1_create_users"; "2_add_email"; "3_add_index"])
             Demo.three ["1_create_users"; "2_add_email"; "3_add_index"] 3
             eq_refl three_sorted three_ascending eq_refl Hk Hc
             (fun n _ => complete_ready (Demo.args 1 false) Down n)).
  - exact (down_run_retreats Demo.plain (Demo.dir Demo.three) Demo.complete
             true (Demo.args 1 false)
             (Demo.store ["1_create_users"; "2_add_email"; "3_add_index"])
             Demo.three ["1_create_users"; "2_add_email"; "3_add_index"] 3
             eq_refl three_sorted three_ascending eq_refl Hk Hc
             (fun n _ => complete_ready (Demo.args 1 false) Down n)).
Defined.


Lemma ordinal_grows_with_width_demo :
  (Py.digit "9" = Some 9 /\ "9"%char <> "0"%char /\ all_digits "" = true
   /\ Py.digit "1" = Some 1 /\ "1"%char <> "0"%char /\ all_digits "0" = true
   /\ (String.length "" < String.length "0")%nat)
  /\ exists x y : Z,
       ordinal "9_x" = Some x /\ ordinal "10_y" = Some y /\ 0 < x < y.
Proof.
  assert (H1: "9"%char <> "0"%char) by discriminate.
  assert (H2: "1"%char <> "0"%char) by discriminate.
  assert (H3: (String.length "" < String.length "0")%nat) by (simpl; lia).
  split; [conjuncts|].
  exact (ordinal_grows_with_width "9" "1" 9 1 "" "0" "x" "y"
           eq_refl H1 eq_refl eq_refl H2 eq_refl H3).
Defined.
